(** * Threshold-based temporary layer input processor

    A shallow embedding of
    [config/src/input_processor_temp_layer_threshold.c] and the
    properties of its accumulation / timeout state machine.

    Conventions.
    - C integers are values of [Z]; every narrowing conversion and every
      fixed-width addition of the source is written out with the wrap-around
      of the target ([CInt.to_int8], [CInt.wrap32], ...).
    - The two [k_work_delayable] items of the device state are modelled by
      their pending deadline (uptime in milliseconds), [None] when idle.
    - Calls into the keymap ([zmk_keymap_layer_activate] and
      [zmk_keymap_layer_deactivate]) are recorded, in order, in a trace that
      every handler returns next to the new state.
    - [k_uptime_get ()] is an input of the motion handler ([now]). *)

From Stdlib Require Import ZArith List Bool Lia.
From Stdlib Require Import Permutation.
Import ListNotations.

Local Open Scope Z_scope.

(* ================================================================== *)
(** ** Fixed-width integers *)

Module CInt.

(** Two's complement reading of the low [w] bits of [z]. *)
Definition wrap_signed (w z : Z) : Z :=
  (z + 2 ^ (w - 1)) mod 2 ^ w - 2 ^ (w - 1).

Definition to_uint8 (z : Z) : Z := z mod 2 ^ 8.
Definition to_int8 (z : Z) : Z := wrap_signed 8 z.
Definition wrap32 (z : Z) : Z := wrap_signed 32 z.
Definition wrap64 (z : Z) : Z := wrap_signed 64 z.

Definition INT32_MAX : Z := 2 ^ 31 - 1.
Definition INT32_MIN : Z := - 2 ^ 31.
Definition INT64_MAX : Z := 2 ^ 63 - 1.
Definition INT64_MIN : Z := - 2 ^ 63.

Definition int32_range (z : Z) : Prop := INT32_MIN <= z <= INT32_MAX.
Definition int64_range (z : Z) : Prop := INT64_MIN <= z <= INT64_MAX.

End CInt.

Import CInt.

(* ================================================================== *)
(** ** The collaborators: input events, key events, kernel work items *)

(** [struct input_event]: the fields the processor reads. *)
Record input_event : Type := {
  type : Z;      (* uint8_t  *)
  code : Z;      (* uint16_t *)
  value : Z      (* int32_t  *)
}.

(** Event type and code numbers of Zephyr's input subsystem. *)
Definition INPUT_EV_REL : Z := 2.
Definition INPUT_REL_X : Z := 0.
Definition INPUT_REL_Y : Z := 1.

(** [struct zmk_position_state_changed]: the fields the listener reads;
    [state] is true for a press and false for a release. *)
Record zmk_position_state_changed : Type := {
  position : Z;     (* uint32_t *)
  state : bool;
  timestamp : Z     (* int64_t  *)
}.

Definition ZMK_EV_EVENT_BUBBLE : Z := 0.
Definition ZMK_INPUT_PROC_CONTINUE : Z := 0.

(** A delayable work item is either idle or pending with the uptime at
    which its handler is due. *)
Definition k_work_delayable : Type := option Z.

(** [K_MSEC (ms)]: a delay of [ms] milliseconds; the macro clamps a
    negative argument to zero. *)
Definition K_MSEC (ms : Z) : Z := Z.max ms 0.

(** [k_work_init_delayable]: the item starts idle. *)
Definition k_work_init_delayable : k_work_delayable := None.

(** [k_work_reschedule (work, delay)] at uptime [now]: whatever was
    pending is replaced by one deadline, [delay] from now. *)
Definition k_work_reschedule (now delay : Z) : k_work_delayable :=
  Some (now + delay).

(** [k_work_cancel_delayable (work)]: nothing is pending afterwards. *)
Definition k_work_cancel_delayable : k_work_delayable := None.

(** The calls made into the keymap; the layer argument is the
    [uint8_t] the callee receives. *)
Inductive keymap_call : Type :=
| zmk_keymap_layer_activate (layer : Z)
| zmk_keymap_layer_deactivate (layer : Z).

(* ================================================================== *)
(** ** Configuration and state of one instance *)

(** [struct temp_layer_threshold_config].  [num_positions] is the length
    of [excluded_positions], as the instantiation macro defines it. *)
Record temp_layer_threshold_config : Type := {
  threshold : Z;               (* int32_t *)
  threshold_time_ms : Z;       (* int32_t *)
  require_prior_idle_ms : Z;   (* int32_t *)
  excluded_positions : list Z  (* const uint32_t[] *)
}.

Definition num_positions (cfg : temp_layer_threshold_config) : nat :=
  length (excluded_positions cfg).

(** [struct temp_layer_threshold_state], without the back pointer [dev]. *)
Record temp_layer_threshold_state : Type := {
  accumulated_x : Z;                      (* int32_t *)
  accumulated_y : Z;                      (* int32_t *)
  accumulation_start_time : Z;            (* int64_t *)
  active_layer : Z;                       (* int8_t  *)
  last_tapped_time : Z;                   (* int64_t *)
  layer_active : bool;
  layer_disable_work : k_work_delayable;
  accumulation_reset_work : k_work_delayable
}.

Definition set_accumulated_x (v : Z) (s : temp_layer_threshold_state) :=
  {| accumulated_x := v;
     accumulated_y := accumulated_y s;
     accumulation_start_time := accumulation_start_time s;
     active_layer := active_layer s;
     last_tapped_time := last_tapped_time s;
     layer_active := layer_active s;
     layer_disable_work := layer_disable_work s;
     accumulation_reset_work := accumulation_reset_work s |}.

Definition set_accumulated_y (v : Z) (s : temp_layer_threshold_state) :=
  {| accumulated_x := accumulated_x s;
     accumulated_y := v;
     accumulation_start_time := accumulation_start_time s;
     active_layer := active_layer s;
     last_tapped_time := last_tapped_time s;
     layer_active := layer_active s;
     layer_disable_work := layer_disable_work s;
     accumulation_reset_work := accumulation_reset_work s |}.

Definition set_active_layer (v : Z) (s : temp_layer_threshold_state) :=
  {| accumulated_x := accumulated_x s;
     accumulated_y := accumulated_y s;
     accumulation_start_time := accumulation_start_time s;
     active_layer := v;
     last_tapped_time := last_tapped_time s;
     layer_active := layer_active s;
     layer_disable_work := layer_disable_work s;
     accumulation_reset_work := accumulation_reset_work s |}.

Definition set_last_tapped_time (v : Z) (s : temp_layer_threshold_state) :=
  {| accumulated_x := accumulated_x s;
     accumulated_y := accumulated_y s;
     accumulation_start_time := accumulation_start_time s;
     active_layer := active_layer s;
     last_tapped_time := v;
     layer_active := layer_active s;
     layer_disable_work := layer_disable_work s;
     accumulation_reset_work := accumulation_reset_work s |}.

Definition set_layer_active (v : bool) (s : temp_layer_threshold_state) :=
  {| accumulated_x := accumulated_x s;
     accumulated_y := accumulated_y s;
     accumulation_start_time := accumulation_start_time s;
     active_layer := active_layer s;
     last_tapped_time := last_tapped_time s;
     layer_active := v;
     layer_disable_work := layer_disable_work s;
     accumulation_reset_work := accumulation_reset_work s |}.

Definition set_layer_disable_work (v : k_work_delayable)
    (s : temp_layer_threshold_state) :=
  {| accumulated_x := accumulated_x s;
     accumulated_y := accumulated_y s;
     accumulation_start_time := accumulation_start_time s;
     active_layer := active_layer s;
     last_tapped_time := last_tapped_time s;
     layer_active := layer_active s;
     layer_disable_work := v;
     accumulation_reset_work := accumulation_reset_work s |}.

Definition set_accumulation_reset_work (v : k_work_delayable)
    (s : temp_layer_threshold_state) :=
  {| accumulated_x := accumulated_x s;
     accumulated_y := accumulated_y s;
     accumulation_start_time := accumulation_start_time s;
     active_layer := active_layer s;
     last_tapped_time := last_tapped_time s;
     layer_active := layer_active s;
     layer_disable_work := layer_disable_work s;
     accumulation_reset_work := v |}.

(** The storage [static struct temp_layer_threshold_state state_n = {}]. *)
Definition state_zero : temp_layer_threshold_state :=
  {| accumulated_x := 0;
     accumulated_y := 0;
     accumulation_start_time := 0;
     active_layer := 0;
     last_tapped_time := 0;
     layer_active := false;
     layer_disable_work := None;
     accumulation_reset_work := None |}.

(* ================================================================== *)
(** ** The handlers *)

(** [layer_disable_callback]: handler of [layer_disable_work]. *)
Definition layer_disable_callback (s : temp_layer_threshold_state)
  : temp_layer_threshold_state * list keymap_call :=
  if layer_active s && (0 <=? active_layer s) then
    (set_active_layer (-1) (set_layer_active false s),
     [zmk_keymap_layer_deactivate (to_uint8 (active_layer s))])
  else (s, []).

(** [accumulation_reset_callback]: handler of [accumulation_reset_work]. *)
Definition accumulation_reset_callback (s : temp_layer_threshold_state)
  : temp_layer_threshold_state :=
  set_accumulated_y 0 (set_accumulated_x 0 s).

(** The scan of [is_position_excluded] over the first entries of the
    exclusion array. *)
Fixpoint scan_positions (ps : list Z) (pos : Z) : bool :=
  match ps with
  | [] => false
  | p :: rest => if p =? pos then true else scan_positions rest pos
  end.

Definition is_position_excluded (cfg : temp_layer_threshold_config)
    (pos : Z) : bool :=
  scan_positions (firstn (num_positions cfg) (excluded_positions cfg)) pos.

(** The body of the [CHECK_LAYER (n)] macro for one instance. *)
Definition CHECK_LAYER (ev : zmk_position_state_changed)
    (cfg : temp_layer_threshold_config) (s : temp_layer_threshold_state)
  : temp_layer_threshold_state * list keymap_call :=
  let '(s1, calls) :=
    if layer_active s && negb (is_position_excluded cfg (position ev)) then
      (set_active_layer (-1)
         (set_layer_active false
            (set_layer_disable_work k_work_cancel_delayable s)),
       [zmk_keymap_layer_deactivate (to_uint8 (active_layer s))])
    else (s, []) in
  (set_last_tapped_time (timestamp ev) s1, calls).

(** A device instance: its constant configuration and its data. *)
Record device : Type := {
  config : temp_layer_threshold_config;
  data : temp_layer_threshold_state
}.

(** [DT_INST_FOREACH_STATUS_OKAY (CHECK_LAYER)]: the macro body runs for
    every instance, in instance order. *)
Fixpoint foreach_CHECK_LAYER (ev : zmk_position_state_changed)
    (devs : list device) : list device * list keymap_call :=
  match devs with
  | [] => ([], [])
  | d :: rest =>
      let '(s, calls) := CHECK_LAYER ev (config d) (data d) in
      let '(rest', calls') := foreach_CHECK_LAYER ev rest in
      ({| config := config d; data := s |} :: rest', calls ++ calls')
  end.

(** [position_state_changed_listener].  The argument is the result of
    [as_zmk_position_state_changed (eh)], [None] for the null pointer. *)
Definition position_state_changed_listener
    (eh : option zmk_position_state_changed) (devs : list device)
  : Z * list device * list keymap_call :=
  match eh with
  | None => (ZMK_EV_EVENT_BUBBLE, devs, [])
  | Some ev =>
      if negb (state ev) then (ZMK_EV_EVENT_BUBBLE, devs, [])
      else
        let '(devs', calls) := foreach_CHECK_LAYER ev devs in
        (ZMK_EV_EVENT_BUBBLE, devs', calls)
  end.

(** [(event->value > 0) ? event->value : -event->value] in [int32_t]. *)
Definition magnitude (v : Z) : Z :=
  if 0 <? v then v else wrap32 (- v).

(** The block under [// Accumulate movement]. *)
Definition accumulate (event : input_event)
    (s : temp_layer_threshold_state) : temp_layer_threshold_state :=
  if type event =? INPUT_EV_REL then
    if code event =? INPUT_REL_X then
      set_accumulated_x
        (wrap32 (accumulated_x s + magnitude (value event))) s
    else if code event =? INPUT_REL_Y then
      set_accumulated_y
        (wrap32 (accumulated_y s + magnitude (value event))) s
    else s
  else s.

(** The test under [// Check prior idle requirement]: true when the
    handler returns before accumulating. *)
Definition prior_idle_blocks (cfg : temp_layer_threshold_config)
    (s : temp_layer_threshold_state) (now : Z) : bool :=
  (0 <? require_prior_idle_ms cfg)
  && (wrap64 (now - last_tapped_time s) <? require_prior_idle_ms cfg).

(** [int32_t total_movement = state->accumulated_x + state->accumulated_y]. *)
Definition total_movement (s : temp_layer_threshold_state) : Z :=
  wrap32 (accumulated_x s + accumulated_y s).

(** [temp_layer_threshold_handle_event].  [param1] and [param2] are the
    [uint32_t] binding parameters, [now] the value of [k_uptime_get ()]. *)
Definition temp_layer_threshold_handle_event
    (cfg : temp_layer_threshold_config) (event : input_event)
    (param1 param2 : Z) (now : Z) (s : temp_layer_threshold_state)
  : Z * temp_layer_threshold_state * list keymap_call :=
  let layer := to_uint8 param1 in
  let timeout_ms := param2 in
  if prior_idle_blocks cfg s now then (ZMK_INPUT_PROC_CONTINUE, s, [])
  else
    let s := accumulate event s in
    let total := total_movement s in
    let s :=
      set_accumulation_reset_work
        (k_work_reschedule now (K_MSEC (threshold_time_ms cfg))) s in
    if layer_active s then
      (ZMK_INPUT_PROC_CONTINUE,
       set_layer_disable_work (k_work_reschedule now (K_MSEC timeout_ms)) s,
       [])
    else if threshold cfg <=? total then
      (ZMK_INPUT_PROC_CONTINUE,
       set_layer_disable_work (k_work_reschedule now (K_MSEC timeout_ms))
         (set_accumulated_y 0
            (set_accumulated_x 0
               (set_active_layer (to_int8 layer)
                  (set_layer_active true s)))),
       [zmk_keymap_layer_activate layer])
    else (ZMK_INPUT_PROC_CONTINUE, s, []).

(** [temp_layer_threshold_init]. *)
Definition temp_layer_threshold_init (s : temp_layer_threshold_state)
  : Z * temp_layer_threshold_state :=
  (0,
   set_accumulation_reset_work k_work_init_delayable
     (set_layer_disable_work k_work_init_delayable
        (set_last_tapped_time 0
           (set_layer_active false
              (set_active_layer (-1)
                 (set_accumulated_y 0 (set_accumulated_x 0 s))))))).

(** The state of an instance once the kernel has initialised it. *)
Definition initial_state : temp_layer_threshold_state :=
  snd (temp_layer_threshold_init state_zero).

(* ================================================================== *)
(** ** Derived notions used by the statements *)

(** What the listener does to one instance. *)
Definition listener_instance (eh : option zmk_position_state_changed)
    (cfg : temp_layer_threshold_config) (s : temp_layer_threshold_state)
  : temp_layer_threshold_state * list keymap_call :=
  match eh with
  | None => (s, [])
  | Some ev => if negb (state ev) then (s, []) else CHECK_LAYER ev cfg s
  end.

Definition listener_devices (eh : option zmk_position_state_changed)
    (devs : list device) : list device :=
  snd (fst (position_state_changed_listener eh devs)).

Definition listener_calls (eh : option zmk_position_state_changed)
    (devs : list device) : list keymap_call :=
  snd (position_state_changed_listener eh devs).

(** One invocation of the motion handler by the input pipeline. *)
Record motion_call : Type := {
  mc_event : input_event;
  mc_param1 : Z;   (* layer   *)
  mc_param2 : Z;   (* timeout *)
  mc_now : Z       (* uptime  *)
}.

Definition handle_call (cfg : temp_layer_threshold_config)
    (c : motion_call) (s : temp_layer_threshold_state)
  : temp_layer_threshold_state * list keymap_call :=
  let r :=
    temp_layer_threshold_handle_event cfg (mc_event c) (mc_param1 c)
      (mc_param2 c) (mc_now c) s in
  (snd (fst r), snd r).

(** [layer_active] is set exactly when [active_layer] holds a layer
    number, that is, is not negative. *)
Definition layer_invariant (s : temp_layer_threshold_state) : Prop :=
  layer_active s = true <-> 0 <= active_layer s.

(** The four entry points, for one instance. *)
Inductive operation : Type :=
| on_motion_event (event : input_event) (param1 param2 now : Z)
| on_key_position_event (eh : option zmk_position_state_changed)
| on_disable_timer_fire
| on_reset_timer_fire.

Definition apply_operation (cfg : temp_layer_threshold_config)
    (op : operation) (s : temp_layer_threshold_state)
  : temp_layer_threshold_state * list keymap_call :=
  match op with
  | on_motion_event event param1 param2 now =>
      handle_call cfg
        {| mc_event := event; mc_param1 := param1;
           mc_param2 := param2; mc_now := now |} s
  | on_key_position_event eh => listener_instance eh cfg s
  | on_disable_timer_fire => layer_disable_callback s
  | on_reset_timer_fire => (accumulation_reset_callback s, [])
  end.

(** The layer number of a motion event fits the signed field
    [active_layer]. *)
Definition layer_fits (op : operation) : Prop :=
  match op with
  | on_motion_event _ param1 _ _ => to_uint8 param1 <= 127
  | _ => True
  end.

(** A run of operations on one instance: the final state and the keymap
    calls of each operation, in order. *)
Fixpoint run_operations (cfg : temp_layer_threshold_config)
    (ops : list operation) (s : temp_layer_threshold_state)
  : temp_layer_threshold_state * list (list keymap_call) :=
  match ops with
  | [] => (s, [])
  | op :: rest =>
      let '(s1, t) := apply_operation cfg op s in
      let '(s2, ts) := run_operations cfg rest s1 in
      (s2, t :: ts)
  end.

(** The accumulators after an operation, looking at the accumulators
    alone: a motion event adds to them, the reset work zeroes them, and the
    other operations leave them. *)
Definition accumulators_after (op : operation)
    (s : temp_layer_threshold_state) : temp_layer_threshold_state :=
  match op with
  | on_motion_event event _ _ _ => accumulate event s
  | on_reset_timer_fire => accumulation_reset_callback s
  | _ => s
  end.

Definition is_motion (op : operation) : bool :=
  match op with
  | on_motion_event _ _ _ _ => true
  | _ => false
  end.

(** Index of the first motion event of a run after whose accumulation
    [accumulated_x + accumulated_y >= threshold]. *)
Fixpoint first_crossing (cfg : temp_layer_threshold_config)
    (s : temp_layer_threshold_state) (ops : list operation) : option nat :=
  match ops with
  | [] => None
  | op :: rest =>
      let s1 := accumulators_after op s in
      if is_motion op && (threshold cfg <=? total_movement s1) then Some O
      else option_map S (first_crossing cfg s1 rest)
  end.

(** An operation of a run is in order when it does not end a held layer
    (it is no qualifying key press and no expiry of the disable work) and,
    for a motion event, when the idle gate lets it through; [param2] is
    unsigned. *)
Definition step_ok (cfg : temp_layer_threshold_config) (op : operation)
    (s : temp_layer_threshold_state) : Prop :=
  (layer_active s = true ->
   layer_active (fst (apply_operation cfg op s)) = true)
  /\ match op with
     | on_motion_event _ _ param2 now =>
         prior_idle_blocks cfg s now = false /\ 0 <= param2
     | _ => True
     end.

Fixpoint run_ok (cfg : temp_layer_threshold_config) (ops : list operation)
    (s : temp_layer_threshold_state) : Prop :=
  match ops with
  | [] => True
  | op :: rest =>
      step_ok cfg op s /\ run_ok cfg rest (fst (apply_operation cfg op s))
  end.

(** The state right after a motion event bound to [param1] and [param2]
    has activated its layer at uptime [now]. *)
Definition activated_by (param1 param2 now : Z)
    (s' : temp_layer_threshold_state) : Prop :=
  layer_active s' = true
  /\ active_layer s' = to_int8 (to_uint8 param1)
  /\ (0 <= param1 <= 127 -> active_layer s' = param1)
  /\ accumulated_x s' = 0
  /\ accumulated_y s' = 0
  /\ layer_disable_work s' = Some (now + param2).

(** The keymap calls of a run started in [s]: none if the total never
    reaches the threshold, else one activation, at the first crossing. *)
Definition run_outcome (cfg : temp_layer_threshold_config)
    (s : temp_layer_threshold_state) (ops : list operation) : Prop :=
  match first_crossing cfg s ops with
  | None =>
      snd (run_operations cfg ops s) = repeat [] (length ops)
      /\ layer_active (fst (run_operations cfg ops s)) = false
  | Some k =>
      exists event param1 param2 now,
        nth_error ops k = Some (on_motion_event event param1 param2 now)
        /\ snd (run_operations cfg ops s)
           = repeat [] k
             ++ [zmk_keymap_layer_activate (to_uint8 param1)]
                :: repeat [] (length ops - S k)
        /\ activated_by param1 param2 now
             (fst (run_operations cfg (firstn (S k) ops) s))
  end.

(* ================================================================== *)
(** ** Sample instance used by the worked scenarios *)

Definition sample_config : temp_layer_threshold_config :=
  {| threshold := 50;
     threshold_time_ms := 100;
     require_prior_idle_ms := 0;
     excluded_positions := [5] |}.

Definition rel_x (v : Z) : input_event :=
  {| type := INPUT_EV_REL; code := INPUT_REL_X; value := v |}.

Definition rel_y (v : Z) : input_event :=
  {| type := INPUT_EV_REL; code := INPUT_REL_Y; value := v |}.

(** [X+30] at uptime 0 and [Y+25] at uptime 10, bound to layer 1 with a
    timeout of 200 ms. *)
Definition sample_run : list operation :=
  [ on_motion_event (rel_x 30) 1 200 0;
    on_motion_event (rel_y 25) 1 200 10 ].

(** The state the sample run leaves behind: layer 1 held active. *)
Definition sample_active_state : temp_layer_threshold_state :=
  fst (run_operations sample_config sample_run initial_state).

Definition gated_config : temp_layer_threshold_config :=
  {| threshold := 50;
     threshold_time_ms := 100;
     require_prior_idle_ms := 300;
     excluded_positions := [5] |}.

(** The sample instance after [X+60] at uptime 100 while layer 1 is held:
    the move is accumulated although the layer is active. *)
Definition sample_stale_state : temp_layer_threshold_state :=
  snd (fst (temp_layer_threshold_handle_event sample_config (rel_x 60) 1 200
              100 sample_active_state)).

(* ================================================================== *)
(** ** Notions used by the further properties *)

(** The accumulation block applied to a sequence of events, first event
    first. *)
Definition accumulate_all (events : list input_event)
    (s : temp_layer_threshold_state) : temp_layer_threshold_state :=
  fold_left (fun st event => accumulate event st) events s.

(** What one event contributes to each axis. *)
Definition movement_x (event : input_event) : Z :=
  if (type event =? INPUT_EV_REL) && (code event =? INPUT_REL_X)
  then magnitude (value event) else 0.

Definition movement_y (event : input_event) : Z :=
  if (type event =? INPUT_EV_REL) && (code event =? INPUT_REL_Y)
  then magnitude (value event) else 0.

Definition sum_Z (l : list Z) : Z := fold_right Z.add 0 l.

(** An event the accumulation block has no case for. *)
Definition unrecognised (event : input_event) : Prop :=
  type event <> INPUT_EV_REL
  \/ (code event <> INPUT_REL_X /\ code event <> INPUT_REL_Y).

(** The layer the instance holds in the keymap, as the keymap sees it. *)
Definition held_of (s : temp_layer_threshold_state) : option Z :=
  if layer_active s then Some (to_uint8 (active_layer s)) else None.

(** A monitor of the keymap calls of one instance: an activation is in
    order when no layer is held, a deactivation when it names the held
    layer.  The result is the layer held at the end, [None] at the top
    level when a call was out of order. *)
Fixpoint replay (held : option Z) (calls : list keymap_call)
  : option (option Z) :=
  match calls with
  | [] => Some held
  | zmk_keymap_layer_activate l :: rest =>
      match held with
      | None => replay (Some l) rest
      | Some _ => None
      end
  | zmk_keymap_layer_deactivate l :: rest =>
      match held with
      | Some l' => if l' =? l then replay None rest else None
      | None => None
      end
  end.

(* ================================================================== *)
(** ** Arithmetic of the conversions *)

Lemma to_uint8_small z : 0 <= z <= 255 -> to_uint8 z = z.
Proof. intros H. unfold to_uint8. apply Z.mod_small. lia. Qed.

Lemma to_uint8_range z : 0 <= to_uint8 z <= 255.
Proof.
  unfold to_uint8. pose proof (Z.mod_pos_bound z (2 ^ 8) ltac:(lia)). lia.
Qed.

Lemma to_int8_small z : -128 <= z <= 127 -> to_int8 z = z.
Proof.
  intros H. unfold to_int8, wrap_signed.
  change (2 ^ (8 - 1)) with 128. change (2 ^ 8) with 256.
  rewrite Z.mod_small; lia.
Qed.

Lemma to_int8_high z : 128 <= z <= 255 -> to_int8 z = z - 256.
Proof.
  intros H. unfold to_int8, wrap_signed.
  change (2 ^ (8 - 1)) with 128. change (2 ^ 8) with 256.
  replace (z + 128) with ((z - 128) + 1 * 256) by lia.
  rewrite Z.mod_add by lia. rewrite Z.mod_small; lia.
Qed.

Lemma wrap32_small z : int32_range z -> wrap32 z = z.
Proof.
  unfold int32_range, INT32_MIN, INT32_MAX, wrap32, wrap_signed.
  change (2 ^ (32 - 1)) with (2 ^ 31). intros H.
  rewrite Z.mod_small; lia.
Qed.

Lemma wrap64_small z : int64_range z -> wrap64 z = z.
Proof.
  unfold int64_range, INT64_MIN, INT64_MAX, wrap64, wrap_signed.
  change (2 ^ (64 - 1)) with (2 ^ 63). intros H.
  rewrite Z.mod_small; lia.
Qed.

Lemma K_MSEC_unsigned ms : 0 <= ms -> K_MSEC ms = ms.
Proof. unfold K_MSEC. lia. Qed.

(* ================================================================== *)
(** ** The exclusion scan and the per-instance loop *)

Lemma scan_positions_In ps pos : scan_positions ps pos = true <-> In pos ps.
Proof.
  induction ps as [|p ps IH]; simpl.
  - split; [discriminate | contradiction].
  - destruct (Z.eqb_spec p pos) as [->|Hne].
    + split; auto.
    + rewrite IH. split; [auto | intros [E|E]; [contradiction | exact E]].
Qed.

Lemma is_position_excluded_In cfg pos :
  is_position_excluded cfg pos = true <-> In pos (excluded_positions cfg).
Proof.
  unfold is_position_excluded, num_positions.
  rewrite firstn_all. apply scan_positions_In.
Qed.

Lemma is_position_excluded_not_In cfg pos :
  is_position_excluded cfg pos = false <-> ~ In pos (excluded_positions cfg).
Proof.
  rewrite <- is_position_excluded_In.
  destruct (is_position_excluded cfg pos); split; congruence.
Qed.

Lemma foreach_CHECK_LAYER_nth ev devs n d :
  nth_error devs n = Some d ->
  nth_error (fst (foreach_CHECK_LAYER ev devs)) n
  = Some {| config := config d;
            data := fst (CHECK_LAYER ev (config d) (data d)) |}.
Proof.
  revert n. induction devs as [|d0 devs IH]; intros [|n] Hn;
    simpl in Hn; try discriminate.
  - injection Hn as ->. simpl.
    destruct (CHECK_LAYER ev (config d) (data d)) as [s calls].
    destruct (foreach_CHECK_LAYER ev devs) as [rest' calls'].
    reflexivity.
  - specialize (IH n Hn). simpl.
    destruct (CHECK_LAYER ev (config d0) (data d0)) as [s calls].
    destruct (foreach_CHECK_LAYER ev devs) as [rest' calls'].
    simpl in *. exact IH.
Qed.

Lemma foreach_CHECK_LAYER_calls ev devs :
  snd (foreach_CHECK_LAYER ev devs)
  = flat_map (fun d => snd (CHECK_LAYER ev (config d) (data d))) devs.
Proof.
  induction devs as [|d0 devs IH]; simpl; [reflexivity|].
  destruct (CHECK_LAYER ev (config d0) (data d0)) as [s calls].
  destruct (foreach_CHECK_LAYER ev devs) as [rest' calls'].
  simpl in *. now rewrite IH.
Qed.

Lemma listener_devices_nth eh devs n d :
  nth_error devs n = Some d ->
  nth_error (listener_devices eh devs) n
  = Some {| config := config d;
            data := fst (listener_instance eh (config d) (data d)) |}.
Proof.
  intros Hn. unfold listener_devices, position_state_changed_listener,
    listener_instance.
  destruct eh as [ev|]; simpl.
  - destruct (state ev); simpl.
    + pose proof (foreach_CHECK_LAYER_nth ev devs n d Hn) as H.
      destruct (foreach_CHECK_LAYER ev devs) as [devs' calls]. exact H.
    + rewrite Hn. now destruct d.
  - rewrite Hn. now destruct d.
Qed.

Lemma listener_calls_flat eh devs :
  listener_calls eh devs
  = flat_map (fun d => snd (listener_instance eh (config d) (data d))) devs.
Proof.
  unfold listener_calls, position_state_changed_listener, listener_instance.
  destruct eh as [ev|]; simpl.
  - destruct (state ev); simpl.
    + pose proof (foreach_CHECK_LAYER_calls ev devs) as H.
      destruct (foreach_CHECK_LAYER ev devs) as [devs' calls]. exact H.
    + induction devs; simpl; auto.
  - induction devs; simpl; auto.
Qed.

Example sample_run_activates :
  run_operations sample_config sample_run initial_state
  = ({| accumulated_x := 0; accumulated_y := 0;
        accumulation_start_time := 0; active_layer := 1;
        last_tapped_time := 0; layer_active := true;
        layer_disable_work := Some 210;
        accumulation_reset_work := Some 110 |},
     [ []; [zmk_keymap_layer_activate 1] ]).
Proof. reflexivity. Qed.

(* ================================================================== *)
(** ** Key-position events *)

Lemma CHECK_LAYER_last_tapped_time ev cfg s :
  last_tapped_time (fst (CHECK_LAYER ev cfg s)) = timestamp ev.
Proof.
  unfold CHECK_LAYER.
  destruct (layer_active s && negb (is_position_excluded cfg (position ev)));
    reflexivity.
Qed.

(** C2, as the claim words it, fails: a release event returns before the
    per-instance block, so its timestamp is not recorded.  Here a release
    stamped 500 leaves [last_tapped_time] at 0. *)
Lemma release_timestamp_not_recorded :
  let ev := {| position := 3; state := false; timestamp := 500 |} in
  let devs := [ {| config := sample_config; data := initial_state |} ] in
  exists d',
    nth_error (listener_devices (Some ev) devs) 0 = Some d'
    /\ last_tapped_time (data d') = 0
    /\ last_tapped_time (data d') <> timestamp ev.
Proof.
  eexists. split; [reflexivity|]. split; [reflexivity|]. discriminate.
Qed.

(** C2 (amended): for every instance, a key-position event that reports a
    press records the event's timestamp into [last_tapped_time]; an event
    that reports a release leaves the instance as it was. *)
Theorem key_press_records_timestamp ev devs n d
    (Hn : nth_error devs n = Some d) :
  exists d',
    nth_error (listener_devices (Some ev) devs) n = Some d'
    /\ config d' = config d
    /\ if state ev
       then last_tapped_time (data d') = timestamp ev
       else d' = d.
Proof.
  eexists. split; [apply listener_devices_nth; exact Hn|].
  split; [reflexivity|]. simpl.
  destruct (state ev) eqn:E; simpl.
  - apply CHECK_LAYER_last_tapped_time.
  - now destruct d.
Qed.

Lemma key_press_records_timestamp_witness :
  exists d',
    nth_error
      (listener_devices
         (Some {| position := 3; state := true; timestamp := 500 |})
         [ {| config := sample_config; data := initial_state |} ]) 0
    = Some d'
    /\ config d' = sample_config
    /\ last_tapped_time (data d') = 500.
Proof.
  exact (key_press_records_timestamp
           {| position := 3; state := true; timestamp := 500 |}
           [ {| config := sample_config; data := initial_state |} ] 0%nat
           {| config := sample_config; data := initial_state |}
           eq_refl).
Defined.

(** C4: in a state with [layer_active] set, a press on a position that is
    not excluded cancels the pending disable work, calls
    [zmk_keymap_layer_deactivate] on the held layer at once, clears
    [layer_active] and resets [active_layer] to -1. *)
Theorem key_press_deactivates_layer ev devs n d
    (Hn : nth_error devs n = Some d)
    (Hactive : layer_active (data d) = true)
    (Hpress : state ev = true)
    (Hnot : ~ In (position ev) (excluded_positions (config d))) :
  exists d',
    nth_error (listener_devices (Some ev) devs) n = Some d'
    /\ config d' = config d
    /\ layer_disable_work (data d') = None
    /\ layer_active (data d') = false
    /\ active_layer (data d') = -1
    /\ snd (listener_instance (Some ev) (config d) (data d))
       = [zmk_keymap_layer_deactivate (to_uint8 (active_layer (data d)))]
    /\ In (zmk_keymap_layer_deactivate (to_uint8 (active_layer (data d))))
          (listener_calls (Some ev) devs).
Proof.
  apply is_position_excluded_not_In in Hnot.
  assert (Hinst : listener_instance (Some ev) (config d) (data d)
                  = (set_last_tapped_time (timestamp ev)
                       (set_active_layer (-1)
                          (set_layer_active false
                             (set_layer_disable_work k_work_cancel_delayable
                                (data d)))),
                     [zmk_keymap_layer_deactivate
                        (to_uint8 (active_layer (data d)))])).
  { unfold listener_instance, CHECK_LAYER.
    rewrite Hpress, Hactive, Hnot. reflexivity. }
  eexists. split; [apply listener_devices_nth; exact Hn|].
  rewrite Hinst. simpl. repeat split.
  rewrite listener_calls_flat. apply in_flat_map.
  exists d. split; [eapply nth_error_In; exact Hn|].
  rewrite Hinst. simpl. now left.
Qed.

Lemma key_press_deactivates_layer_witness :
  exists d',
    nth_error
      (listener_devices
         (Some {| position := 3; state := true; timestamp := 50 |})
         [ {| config := sample_config; data := sample_active_state |} ]) 0
    = Some d'
    /\ config d' = sample_config
    /\ layer_disable_work (data d') = None
    /\ layer_active (data d') = false
    /\ active_layer (data d') = -1
    /\ snd (listener_instance
              (Some {| position := 3; state := true; timestamp := 50 |})
              sample_config sample_active_state)
       = [zmk_keymap_layer_deactivate
            (to_uint8 (active_layer sample_active_state))]
    /\ In (zmk_keymap_layer_deactivate
             (to_uint8 (active_layer sample_active_state)))
          (listener_calls
             (Some {| position := 3; state := true; timestamp := 50 |})
             [ {| config := sample_config; data := sample_active_state |} ]).
Proof.
  apply (key_press_deactivates_layer
           {| position := 3; state := true; timestamp := 50 |}
           [ {| config := sample_config; data := sample_active_state |} ]
           0%nat
           {| config := sample_config; data := sample_active_state |}).
  - reflexivity.
  - reflexivity.
  - reflexivity.
  - simpl. lia.
Defined.

(** C9: in a state with [layer_active] set, a press on an excluded
    position changes [last_tapped_time] and nothing else: the layer stays
    active, [active_layer] is kept, the disable work is neither cancelled
    nor rescheduled, and the instance makes no keymap call. *)
Theorem excluded_key_press_keeps_layer ev devs n d
    (Hn : nth_error devs n = Some d)
    (Hactive : layer_active (data d) = true)
    (Hpress : state ev = true)
    (Hin : In (position ev) (excluded_positions (config d))) :
  exists d',
    nth_error (listener_devices (Some ev) devs) n = Some d'
    /\ config d' = config d
    /\ data d' = set_last_tapped_time (timestamp ev) (data d)
    /\ layer_active (data d') = true
    /\ active_layer (data d') = active_layer (data d)
    /\ layer_disable_work (data d') = layer_disable_work (data d)
    /\ snd (listener_instance (Some ev) (config d) (data d)) = [].
Proof.
  apply is_position_excluded_In in Hin.
  assert (Hinst : listener_instance (Some ev) (config d) (data d)
                  = (set_last_tapped_time (timestamp ev) (data d), [])).
  { unfold listener_instance, CHECK_LAYER.
    rewrite Hpress, Hactive, Hin. reflexivity. }
  eexists. split; [apply listener_devices_nth; exact Hn|].
  rewrite Hinst. simpl. repeat split. exact Hactive.
Qed.

Lemma excluded_key_press_keeps_layer_witness :
  exists d',
    nth_error
      (listener_devices
         (Some {| position := 5; state := true; timestamp := 50 |})
         [ {| config := sample_config; data := sample_active_state |} ]) 0
    = Some d'
    /\ config d' = sample_config
    /\ data d' = set_last_tapped_time 50 sample_active_state
    /\ layer_active (data d') = true
    /\ active_layer (data d') = active_layer sample_active_state
    /\ layer_disable_work (data d') = layer_disable_work sample_active_state
    /\ snd (listener_instance
              (Some {| position := 5; state := true; timestamp := 50 |})
              sample_config sample_active_state) = [].
Proof.
  apply (excluded_key_press_keeps_layer
           {| position := 5; state := true; timestamp := 50 |}
           [ {| config := sample_config; data := sample_active_state |} ]
           0%nat
           {| config := sample_config; data := sample_active_state |}).
  - reflexivity.
  - reflexivity.
  - reflexivity.
  - simpl. lia.
Defined.

(** The scenario of the spec: position 5 is excluded and keeps the layer,
    position 3 is not and ends it. *)
Example excluded_then_ordinary_key :
  let devs := [ {| config := sample_config; data := sample_active_state |} ] in
  let press5 := Some {| position := 5; state := true; timestamp := 50 |} in
  let press3 := Some {| position := 3; state := true; timestamp := 60 |} in
  map (fun d => layer_active (data d)) (listener_devices press5 devs) = [true]
  /\ listener_calls press5 devs = []
  /\ map (fun d => layer_active (data d))
       (listener_devices press3 (listener_devices press5 devs)) = [false]
  /\ listener_calls press3 (listener_devices press5 devs)
     = [zmk_keymap_layer_deactivate 1].
Proof. repeat split. Qed.

(* ================================================================== *)
(** ** Motion events: the idle gate and the renewal of the timeout *)

Lemma accumulate_layer_active event s :
  layer_active (accumulate event s) = layer_active s.
Proof.
  unfold accumulate.
  destruct (type event =? INPUT_EV_REL); [|reflexivity].
  destruct (code event =? INPUT_REL_X); [reflexivity|].
  destruct (code event =? INPUT_REL_Y); reflexivity.
Qed.

Lemma accumulate_active_layer event s :
  active_layer (accumulate event s) = active_layer s.
Proof.
  unfold accumulate.
  destruct (type event =? INPUT_EV_REL); [|reflexivity].
  destruct (code event =? INPUT_REL_X); [reflexivity|].
  destruct (code event =? INPUT_REL_Y); reflexivity.
Qed.

Lemma accumulate_last_tapped_time event s :
  last_tapped_time (accumulate event s) = last_tapped_time s.
Proof.
  unfold accumulate.
  destruct (type event =? INPUT_EV_REL); [|reflexivity].
  destruct (code event =? INPUT_REL_X); [reflexivity|].
  destruct (code event =? INPUT_REL_Y); reflexivity.
Qed.

(** The accumulation reads and writes the two accumulators only. *)
Lemma accumulate_ext event s s' :
  accumulated_x s = accumulated_x s' ->
  accumulated_y s = accumulated_y s' ->
  accumulated_x (accumulate event s) = accumulated_x (accumulate event s')
  /\ accumulated_y (accumulate event s) = accumulated_y (accumulate event s').
Proof.
  intros Hx Hy. unfold accumulate.
  destruct (type event =? INPUT_EV_REL); [|now split].
  destruct (code event =? INPUT_REL_X); [simpl; rewrite Hx; now split|].
  destruct (code event =? INPUT_REL_Y); [simpl; rewrite Hy; now split|].
  now split.
Qed.

Lemma total_movement_ext s s' :
  accumulated_x s = accumulated_x s' ->
  accumulated_y s = accumulated_y s' ->
  total_movement s = total_movement s'.
Proof. unfold total_movement. now intros -> ->. Qed.

(** The three ways out of the handler once the idle gate is passed. *)
Lemma handle_event_active cfg event param1 param2 now s :
  prior_idle_blocks cfg s now = false ->
  layer_active s = true ->
  temp_layer_threshold_handle_event cfg event param1 param2 now s
  = (ZMK_INPUT_PROC_CONTINUE,
     set_layer_disable_work (k_work_reschedule now (K_MSEC param2))
       (set_accumulation_reset_work
          (k_work_reschedule now (K_MSEC (threshold_time_ms cfg)))
          (accumulate event s)),
     []).
Proof.
  intros Hgate Hact. unfold temp_layer_threshold_handle_event.
  rewrite Hgate. cbn [layer_active set_accumulation_reset_work].
  rewrite accumulate_layer_active, Hact. reflexivity.
Qed.

Lemma handle_event_crossing cfg event param1 param2 now s :
  prior_idle_blocks cfg s now = false ->
  layer_active s = false ->
  threshold cfg <= total_movement (accumulate event s) ->
  temp_layer_threshold_handle_event cfg event param1 param2 now s
  = (ZMK_INPUT_PROC_CONTINUE,
     set_layer_disable_work (k_work_reschedule now (K_MSEC param2))
       (set_accumulated_y 0
          (set_accumulated_x 0
             (set_active_layer (to_int8 (to_uint8 param1))
                (set_layer_active true
                   (set_accumulation_reset_work
                      (k_work_reschedule now (K_MSEC (threshold_time_ms cfg)))
                      (accumulate event s)))))),
     [zmk_keymap_layer_activate (to_uint8 param1)]).
Proof.
  intros Hgate Hact Hthr. unfold temp_layer_threshold_handle_event.
  rewrite Hgate. cbn [layer_active set_accumulation_reset_work].
  rewrite accumulate_layer_active, Hact.
  apply Z.leb_le in Hthr. rewrite Hthr. reflexivity.
Qed.

Lemma handle_event_below cfg event param1 param2 now s :
  prior_idle_blocks cfg s now = false ->
  layer_active s = false ->
  total_movement (accumulate event s) < threshold cfg ->
  temp_layer_threshold_handle_event cfg event param1 param2 now s
  = (ZMK_INPUT_PROC_CONTINUE,
     set_accumulation_reset_work
       (k_work_reschedule now (K_MSEC (threshold_time_ms cfg)))
       (accumulate event s),
     []).
Proof.
  intros Hgate Hact Hthr. unfold temp_layer_threshold_handle_event.
  rewrite Hgate. cbn [layer_active set_accumulation_reset_work].
  rewrite accumulate_layer_active, Hact.
  apply Z.leb_gt in Hthr. rewrite Hthr. reflexivity.
Qed.

(** C5: in a state with [layer_active] set, a motion event that passes
    the idle gate reschedules the disable work to [timeout_ms] after the
    event time, replacing whatever deadline was pending, and makes no
    keymap call: the threshold comparison is not reached, and the held
    layer is kept. *)
Theorem active_motion_renews_timeout cfg event param1 param2 now s
    (Hactive : layer_active s = true)
    (Hgate : prior_idle_blocks cfg s now = false)
    (Htimeout : 0 <= param2) :
  let r := temp_layer_threshold_handle_event cfg event param1 param2 now s in
  fst (fst r) = ZMK_INPUT_PROC_CONTINUE
  /\ snd r = []
  /\ layer_disable_work (snd (fst r)) = Some (now + param2)
  /\ layer_active (snd (fst r)) = true
  /\ active_layer (snd (fst r)) = active_layer s.
Proof.
  cbv zeta. rewrite handle_event_active by assumption.
  cbn [fst snd layer_disable_work layer_active active_layer
       set_layer_disable_work set_accumulation_reset_work].
  rewrite accumulate_layer_active, accumulate_active_layer.
  unfold k_work_reschedule. rewrite K_MSEC_unsigned by assumption.
  repeat split. exact Hactive.
Qed.

(** The scenario of the spec: the layer is active with the disable work
    due at 210; a motion event at uptime 150 with a timeout of 200 ms moves
    the deadline to 350. *)
Lemma active_motion_renews_timeout_witness :
  let r :=
    temp_layer_threshold_handle_event sample_config (rel_x 4) 1 200 150
      sample_active_state in
  fst (fst r) = ZMK_INPUT_PROC_CONTINUE
  /\ snd r = []
  /\ layer_disable_work (snd (fst r)) = Some (150 + 200)
  /\ layer_active (snd (fst r)) = true
  /\ active_layer (snd (fst r)) = active_layer sample_active_state.
Proof.
  apply (active_motion_renews_timeout sample_config (rel_x 4) 1 200 150
           sample_active_state).
  - reflexivity.
  - reflexivity.
  - lia.
Defined.

(** C6: with [require_prior_idle_ms > 0], a motion event less than
    [require_prior_idle_ms] milliseconds after [last_tapped_time] is
    dropped by the handler: it returns [ZMK_INPUT_PROC_CONTINUE], the
    state (accumulators and both work items included) is the one it was
    given, and no keymap call is made.  [Hdiff] says the subtraction
    [now - last_tapped_time] is defined in [int64_t]. *)
Theorem recent_key_suppresses_motion cfg event param1 param2 now s
    (Hidle : 0 < require_prior_idle_ms cfg)
    (Hdiff : int64_range (now - last_tapped_time s))
    (Hrecent : now - last_tapped_time s < require_prior_idle_ms cfg) :
  temp_layer_threshold_handle_event cfg event param1 param2 now s
  = (ZMK_INPUT_PROC_CONTINUE, s, []).
Proof.
  unfold temp_layer_threshold_handle_event, prior_idle_blocks.
  rewrite wrap64_small by exact Hdiff.
  apply Z.ltb_lt in Hidle. apply Z.ltb_lt in Hrecent.
  rewrite Hidle, Hrecent. reflexivity.
Qed.

(** A key was tapped at uptime 1000; motion of 80 counts at uptime 1299
    would cross the threshold of 50 but is dropped. *)
Lemma recent_key_suppresses_motion_witness :
  temp_layer_threshold_handle_event gated_config (rel_x 80) 1 200 1299
    (set_last_tapped_time 1000 initial_state)
  = (ZMK_INPUT_PROC_CONTINUE, set_last_tapped_time 1000 initial_state, []).
Proof.
  apply (recent_key_suppresses_motion gated_config (rel_x 80) 1 200 1299
           (set_last_tapped_time 1000 initial_state)).
  - simpl. lia.
  - unfold int64_range, INT64_MIN, INT64_MAX. simpl. lia.
  - simpl. lia.
Defined.

(** At exactly [require_prior_idle_ms] after the key the gate is open. *)
Example idle_gate_boundary :
  snd (temp_layer_threshold_handle_event gated_config (rel_x 80) 1 200 1300
         (set_last_tapped_time 1000 initial_state))
  = [zmk_keymap_layer_activate 1].
Proof. reflexivity. Qed.

(* ================================================================== *)
(** ** The two work handlers *)

(** C7: the disable handler is idempotent.  A second run right after a
    first changes nothing and makes no call, so two runs in a row call
    [zmk_keymap_layer_deactivate] at most once; and a run in a state with
    [layer_active] clear returns the state as it was and makes no call. *)
Theorem layer_disable_callback_idempotent s :
  layer_disable_callback (fst (layer_disable_callback s))
  = (fst (layer_disable_callback s), [])
  /\ (length (snd (layer_disable_callback s)
              ++ snd (layer_disable_callback (fst (layer_disable_callback s))))
      <= 1)%nat
  /\ (layer_active s = false -> layer_disable_callback s = (s, [])).
Proof.
  unfold layer_disable_callback.
  destruct (layer_active s) eqn:Hact; simpl.
  - destruct (0 <=? active_layer s) eqn:Hlayer; simpl.
    + repeat split; try lia; discriminate.
    + rewrite Hact, Hlayer. simpl. repeat split; try lia; discriminate.
  - rewrite Hact. simpl. repeat split; lia.
Qed.

Lemma layer_disable_callback_idempotent_witness :
  layer_disable_callback initial_state = (initial_state, [])
  /\ snd (layer_disable_callback sample_active_state)
     = [zmk_keymap_layer_deactivate 1]
  /\ snd (layer_disable_callback
            (fst (layer_disable_callback sample_active_state))) = [].
Proof.
  split; [|split].
  - apply (proj2 (proj2 (layer_disable_callback_idempotent initial_state))).
    reflexivity.
  - reflexivity.
  - rewrite (proj1 (layer_disable_callback_idempotent sample_active_state)).
    reflexivity.
Defined.

(** C8: the reset handler zeroes both accumulators in every state and
    touches nothing else; hence what a later motion event does is the same
    whatever had been accumulated before the reset. *)
Theorem accumulation_reset_callback_zeroes s :
  accumulated_x (accumulation_reset_callback s) = 0
  /\ accumulated_y (accumulation_reset_callback s) = 0
  /\ total_movement (accumulation_reset_callback s) = 0
  /\ accumulation_reset_callback s
     = set_accumulated_y 0 (set_accumulated_x 0 s)
  /\ forall cfg event param1 param2 now x y,
       temp_layer_threshold_handle_event cfg event param1 param2 now
         (accumulation_reset_callback
            (set_accumulated_y y (set_accumulated_x x s)))
       = temp_layer_threshold_handle_event cfg event param1 param2 now
           (accumulation_reset_callback s).
Proof.
  repeat split.
Qed.

(** The scenario of the spec, threshold 50 and a window of 100 ms: [X+30],
    then the reset work fires at uptime 100, then [X+30] again at uptime
    150.  The second event does not activate the layer (the total is 30);
    without the reset it would (60). *)
Example reset_between_two_moves :
  let s1 := fst (handle_call sample_config
                   {| mc_event := rel_x 30; mc_param1 := 1;
                      mc_param2 := 200; mc_now := 0 |} initial_state) in
  let again := {| mc_event := rel_x 30; mc_param1 := 1;
                  mc_param2 := 200; mc_now := 150 |} in
  accumulated_x s1 = 30
  /\ accumulation_reset_work s1 = Some 100
  /\ snd (handle_call sample_config again (accumulation_reset_callback s1))
     = []
  /\ total_movement
       (fst (handle_call sample_config again (accumulation_reset_callback s1)))
     = 30
  /\ snd (handle_call sample_config again s1)
     = [zmk_keymap_layer_activate 1].
Proof. repeat split. Qed.

(** A total one short of the threshold is forgotten as well. *)
Example reset_just_below_threshold :
  let s1 := fst (handle_call sample_config
                   {| mc_event := rel_x 49; mc_param1 := 1;
                      mc_param2 := 200; mc_now := 0 |} initial_state) in
  let one := {| mc_event := rel_y 1; mc_param1 := 1;
                mc_param2 := 200; mc_now := 150 |} in
  total_movement s1 = 49
  /\ snd (handle_call sample_config one (accumulation_reset_callback s1)) = []
  /\ snd (handle_call sample_config one s1) = [zmk_keymap_layer_activate 1].
Proof. repeat split. Qed.

(* ================================================================== *)
(** ** Runs of motion events: one activation, at the first crossing *)

Lemma handle_call_active cfg c s :
  layer_active s = true ->
  snd (handle_call cfg c s) = []
  /\ layer_active (fst (handle_call cfg c s)) = true.
Proof.
  intros Hact. unfold handle_call.
  destruct (prior_idle_blocks cfg s (mc_now c)) eqn:Hg.
  - unfold temp_layer_threshold_handle_event. rewrite Hg. simpl. auto.
  - rewrite handle_event_active by assumption. simpl.
    rewrite accumulate_layer_active. auto.
Qed.

(** An operation that leaves a held layer held makes no keymap call. *)
Lemma apply_operation_active_quiet cfg op s :
  layer_active s = true ->
  layer_active (fst (apply_operation cfg op s)) = true ->
  snd (apply_operation cfg op s) = [].
Proof.
  intros Hact Hkeep.
  destruct op as [event p1 p2 now | eh | | ]; cbn [apply_operation] in *.
  - now apply handle_call_active.
  - unfold listener_instance in *. destruct eh as [ev|]; [|reflexivity].
    destruct (state ev); [|reflexivity]. unfold CHECK_LAYER in *. simpl in *.
    destruct (layer_active s && negb (is_position_excluded cfg (position ev)));
      [discriminate | reflexivity].
  - unfold layer_disable_callback in *.
    destruct (layer_active s && (0 <=? active_layer s));
      [discriminate | reflexivity].
  - reflexivity.
Qed.

Lemma run_active_quiet cfg ops : forall s,
  layer_active s = true ->
  run_ok cfg ops s ->
  snd (run_operations cfg ops s) = repeat [] (length ops).
Proof.
  induction ops as [|op rest IH]; intros s Hact Hok;
    cbn [run_operations run_ok length repeat fst snd] in *; [reflexivity|].
  destruct Hok as [[Hkeep _] Hrest]. specialize (Hkeep Hact).
  pose proof (apply_operation_active_quiet cfg op s Hact Hkeep) as Ht.
  destruct (apply_operation cfg op s) as [s1 t]. cbn [fst snd] in *. subst t.
  specialize (IH s1 Hkeep Hrest).
  destruct (run_operations cfg rest s1) as [s2 ts]. cbn [fst snd] in *.
  now subst ts.
Qed.

Lemma accumulators_after_ext op s s' :
  accumulated_x s = accumulated_x s' ->
  accumulated_y s = accumulated_y s' ->
  accumulated_x (accumulators_after op s)
  = accumulated_x (accumulators_after op s')
  /\ accumulated_y (accumulators_after op s)
     = accumulated_y (accumulators_after op s').
Proof.
  intros Hx Hy. destruct op; cbn [accumulators_after]; auto.
  now apply accumulate_ext.
Qed.

Lemma first_crossing_ext cfg ops : forall s s',
  accumulated_x s = accumulated_x s' ->
  accumulated_y s = accumulated_y s' ->
  first_crossing cfg s ops = first_crossing cfg s' ops.
Proof.
  induction ops as [|op rest IH]; intros s s' Hx Hy;
    cbn [first_crossing]; [reflexivity|].
  destruct (accumulators_after_ext op s s' Hx Hy) as [Hx1 Hy1].
  rewrite (total_movement_ext _ _ Hx1 Hy1).
  now rewrite (IH _ _ Hx1 Hy1).
Qed.

Lemma to_int8_to_uint8_small p : 0 <= p <= 127 -> to_int8 (to_uint8 p) = p.
Proof.
  intros H. rewrite to_uint8_small by lia. apply to_int8_small. lia.
Qed.

(** With the layer inactive, an operation that is not a crossing motion
    event makes no call, leaves the layer inactive and moves the
    accumulators as [accumulators_after] says. *)
Lemma apply_operation_inactive_quiet cfg op s :
  layer_active s = false ->
  step_ok cfg op s ->
  is_motion op
  && (threshold cfg <=? total_movement (accumulators_after op s)) = false ->
  snd (apply_operation cfg op s) = []
  /\ layer_active (fst (apply_operation cfg op s)) = false
  /\ accumulated_x (fst (apply_operation cfg op s))
     = accumulated_x (accumulators_after op s)
  /\ accumulated_y (fst (apply_operation cfg op s))
     = accumulated_y (accumulators_after op s).
Proof.
  intros Hoff [_ Hgate] Hquiet.
  destruct op as [event p1 p2 now | eh | | ];
    cbn [apply_operation accumulators_after is_motion andb] in *.
  - destruct Hgate as [Hg _]. apply Z.leb_gt in Hquiet.
    unfold handle_call. cbn [mc_event mc_param1 mc_param2 mc_now].
    rewrite handle_event_below by assumption. cbn [fst snd].
    repeat split. simpl. now rewrite accumulate_layer_active.
  - unfold listener_instance. destruct eh as [ev|]; [|now repeat split].
    destruct (state ev); [|now repeat split]. unfold CHECK_LAYER.
    rewrite Hoff. now repeat split.
  - unfold layer_disable_callback. rewrite Hoff. now repeat split.
  - now repeat split.
Qed.

Section Run.

Variable cfg : temp_layer_threshold_config.

Lemma run_outcome_from ops : forall s,
  layer_active s = false ->
  run_ok cfg ops s ->
  run_outcome cfg s ops.
Proof.
  unfold run_outcome.
  induction ops as [|op rest IH]; intros s Hoff Hok.
  - simpl. auto.
  - cbn [run_ok] in Hok. destruct Hok as [Hstep Hrest].
    cbn [first_crossing].
    destruct (is_motion op
              && (threshold cfg <=? total_movement (accumulators_after op s)))
      eqn:Hcross.
    + (* a motion event that brings the total to the threshold *)
      destruct op as [event p1 p2 now | eh | | ];
        cbn [is_motion andb accumulators_after] in Hcross;
        try discriminate.
      apply Z.leb_le in Hcross.
      destruct Hstep as [_ [Hg Ht]].
      pose proof (handle_event_crossing cfg event p1 p2 now s Hg Hoff Hcross)
        as Hev.
      match type of Hev with
      | _ = (_, ?st, _) => set (s1 := st) in Hev
      end.
      assert (Hcall : apply_operation cfg (on_motion_event event p1 p2 now) s
                      = (s1, [zmk_keymap_layer_activate (to_uint8 p1)])).
      { cbn [apply_operation]. unfold handle_call.
        cbn [mc_event mc_param1 mc_param2 mc_now]. now rewrite Hev. }
      rewrite Hcall in Hrest. cbn [fst] in Hrest.
      exists event, p1, p2, now. split; [reflexivity|].
      cbn [firstn run_operations]. rewrite Hcall.
      pose proof (run_active_quiet cfg rest s1 eq_refl Hrest) as Hts.
      destruct (run_operations cfg rest s1) as [s2 ts].
      cbn [fst snd] in *. subst ts.
      split.
      * simpl. now rewrite Nat.sub_0_r.
      * unfold activated_by, s1.
        cbn [layer_active active_layer accumulated_x accumulated_y
             layer_disable_work set_layer_disable_work set_accumulated_y
             set_accumulated_x set_active_layer set_layer_active].
        unfold k_work_reschedule. rewrite K_MSEC_unsigned by assumption.
        repeat split. apply to_int8_to_uint8_small.
    + (* anything else: no call, the layer stays inactive *)
      destruct (apply_operation_inactive_quiet cfg op s Hoff Hstep Hcross)
        as (Ht & Hoff1 & Hx1 & Hy1).
      destruct (apply_operation cfg op s) as [s1 t] eqn:Hcall.
      cbn [fst snd] in *. subst t.
      specialize (IH s1 Hoff1 Hrest).
      rewrite (first_crossing_ext cfg rest (accumulators_after op s) s1)
        by (symmetry; assumption).
      destruct (first_crossing cfg s1 rest) as [k|]; cbn [option_map].
      * destruct IH as (event & p1 & p2 & now & Hnth & Htrace & Hact).
        exists event, p1, p2, now. split; [exact Hnth|].
        change (firstn (S (S k)) (op :: rest))
          with (op :: firstn (S k) rest).
        cbn [run_operations]. rewrite Hcall.
        destruct (run_operations cfg rest s1) as [s2 ts].
        destruct (run_operations cfg (firstn (S k) rest) s1) as [s3 ts3].
        cbn [fst snd] in *. subst ts. split; [reflexivity|exact Hact].
      * destruct IH as [Htrace Hinact].
        cbn [run_operations]. rewrite Hcall.
        destruct (run_operations cfg rest s1) as [s2 ts].
        cbn [fst snd length repeat] in *. now subst ts.
Qed.

End Run.

(** C1, as the claim words it, fails in one detail: [active_layer] is a
    signed 8-bit field, so a layer number above 127 is not what it holds
    after the activation.  Here layer 200 is activated and the field holds
    -56. *)
Lemma activation_stores_signed_layer :
  let ops := [on_motion_event (rel_x 60) 200 200 0] in
  first_crossing sample_config initial_state ops = Some 0%nat
  /\ snd (run_operations sample_config ops initial_state)
     = [[zmk_keymap_layer_activate 200]]
  /\ layer_active (fst (run_operations sample_config ops initial_state))
     = true
  /\ active_layer (fst (run_operations sample_config ops initial_state))
     = -56
  /\ active_layer (fst (run_operations sample_config ops initial_state))
     <> 200.
Proof. repeat split. discriminate. Qed.

(** C1 (amended): take a run of motion events, started with the layer
    inactive, in which every motion event passes the idle gate and nothing
    in between ends a held layer (no qualifying key press, no expiry of
    the disable work; other key events and the reset work may occur).
    If no motion event brings [accumulated_x + accumulated_y] to the
    threshold, no keymap call is made and the layer stays inactive.
    Otherwise let [k] be the first that does: the operations before [k]
    make no call, event [k] makes the one call
    [zmk_keymap_layer_activate (layer_id)], the operations after [k] make
    none; and right after event [k], [layer_active] is set,
    [active_layer] holds [layer_id] read as a signed 8-bit number (which
    is [layer_id] itself up to 127), both accumulators are zero and the
    disable work is due [timeout_ms] after the event. *)
Theorem layer_activates_once_at_first_crossing cfg s ops
    (Hinactive : layer_active s = false)
    (Hrun : run_ok cfg ops s) :
  match first_crossing cfg s ops with
  | None =>
      snd (run_operations cfg ops s) = repeat [] (length ops)
      /\ layer_active (fst (run_operations cfg ops s)) = false
  | Some k =>
      exists event param1 param2 now,
        nth_error ops k = Some (on_motion_event event param1 param2 now)
        /\ snd (run_operations cfg ops s)
           = repeat [] k
             ++ [zmk_keymap_layer_activate (to_uint8 param1)]
                :: repeat [] (length ops - S k)
        /\ let s' := fst (run_operations cfg (firstn (S k) ops) s) in
           layer_active s' = true
           /\ active_layer s' = to_int8 (to_uint8 param1)
           /\ (0 <= param1 <= 127 -> active_layer s' = param1)
           /\ accumulated_x s' = 0
           /\ accumulated_y s' = 0
           /\ layer_disable_work s' = Some (now + param2)
  end.
Proof.
  apply (run_outcome_from cfg ops s Hinactive Hrun).
Qed.

(** The scenario of the spec, threshold 50: [X+30], a key release, then
    [Y+25] activates layer 1; a press of the excluded key 5 and a further
    move follow and make no call. *)
Lemma layer_activates_once_at_first_crossing_witness :
  run_outcome sample_config initial_state
    [ on_motion_event (rel_x 30) 1 200 0;
      on_key_position_event
        (Some {| position := 3; state := false; timestamp := 5 |});
      on_motion_event (rel_y 25) 1 200 10;
      on_key_position_event
        (Some {| position := 5; state := true; timestamp := 15 |});
      on_motion_event (rel_x 70) 1 200 20 ].
Proof.
  apply (layer_activates_once_at_first_crossing sample_config initial_state).
  - reflexivity.
  - vm_compute. repeat split; try discriminate; auto.
Defined.

Example sample_run_first_crossing :
  let ops :=
    [ on_motion_event (rel_x 30) 1 200 0;
      on_key_position_event
        (Some {| position := 3; state := false; timestamp := 5 |});
      on_motion_event (rel_y 25) 1 200 10;
      on_key_position_event
        (Some {| position := 5; state := true; timestamp := 15 |});
      on_motion_event (rel_x 70) 1 200 20 ] in
  first_crossing sample_config initial_state ops = Some 2%nat
  /\ snd (run_operations sample_config ops initial_state)
     = [ []; []; [zmk_keymap_layer_activate 1]; []; [] ].
Proof. split; reflexivity. Qed.

(** Where the claim stops: once the disable work has expired, the same
    run crosses the threshold and activates a second time. *)
Example expiry_allows_second_activation :
  snd (run_operations sample_config
         [ on_motion_event (rel_x 60) 1 200 0;
           on_disable_timer_fire;
           on_motion_event (rel_x 60) 1 200 300 ] initial_state)
  = [ [zmk_keymap_layer_activate 1];
      [zmk_keymap_layer_deactivate 1];
      [zmk_keymap_layer_activate 1] ].
Proof. reflexivity. Qed.

(* ================================================================== *)
(** ** The invariant between [layer_active] and [active_layer] *)

Lemma layer_invariant_initial : layer_invariant initial_state.
Proof. unfold layer_invariant. simpl. split; [discriminate | lia]. Qed.

Lemma layer_invariant_same s s' :
  layer_active s' = layer_active s ->
  active_layer s' = active_layer s ->
  layer_invariant s -> layer_invariant s'.
Proof. unfold layer_invariant. now intros -> ->. Qed.

Lemma layer_invariant_cleared s :
  layer_active s = false -> active_layer s = -1 -> layer_invariant s.
Proof.
  unfold layer_invariant. intros -> ->. split; [discriminate | lia].
Qed.

Lemma layer_invariant_handle_call cfg c s :
  to_uint8 (mc_param1 c) <= 127 ->
  layer_invariant s ->
  layer_invariant (fst (handle_call cfg c s)).
Proof.
  intros Hfit Hinv. unfold handle_call.
  destruct (prior_idle_blocks cfg s (mc_now c)) eqn:Hg.
  { unfold temp_layer_threshold_handle_event. rewrite Hg. exact Hinv. }
  destruct (layer_active s) eqn:Hact.
  { rewrite handle_event_active by assumption.
    apply (layer_invariant_same s); simpl;
      [rewrite accumulate_layer_active
      | rewrite accumulate_active_layer | ]; congruence. }
  destruct (Z.le_gt_cases (threshold cfg)
              (total_movement (accumulate (mc_event c) s))) as [Hthr|Hthr].
  - rewrite handle_event_crossing by assumption.
    unfold layer_invariant.
    cbn [fst snd layer_active active_layer set_layer_disable_work
         set_accumulated_y set_accumulated_x set_active_layer
         set_layer_active].
    pose proof (to_uint8_range (mc_param1 c)) as Hr.
    rewrite to_int8_small by lia. split; [lia | reflexivity].
  - rewrite handle_event_below by assumption.
    apply (layer_invariant_same s); simpl;
      [rewrite accumulate_layer_active
      | rewrite accumulate_active_layer | ]; congruence.
Qed.

Lemma layer_invariant_listener_instance eh cfg s :
  layer_invariant s ->
  layer_invariant (fst (listener_instance eh cfg s)).
Proof.
  intros Hinv. unfold listener_instance.
  destruct eh as [ev|]; [|exact Hinv].
  destruct (state ev); [|exact Hinv]. unfold CHECK_LAYER. simpl.
  destruct (layer_active s && negb (is_position_excluded cfg (position ev))).
  - now apply layer_invariant_cleared.
  - now apply (layer_invariant_same s).
Qed.

Lemma layer_invariant_layer_disable_callback s :
  layer_invariant s ->
  layer_invariant (fst (layer_disable_callback s)).
Proof.
  intros Hinv. unfold layer_disable_callback.
  destruct (layer_active s && (0 <=? active_layer s)); [|exact Hinv].
  now apply layer_invariant_cleared.
Qed.

(** C3, as the claim words it, fails: the motion handler stores a layer
    number above 127 as a negative [active_layer] while setting
    [layer_active].  From the initial state, one event bound to layer 200
    breaks the invariant. *)
Lemma layer_invariant_broken_by_layer_200 :
  let s' :=
    fst (apply_operation sample_config
           (on_motion_event (rel_x 60) 200 200 0) initial_state) in
  layer_invariant initial_state
  /\ layer_active s' = true
  /\ active_layer s' = -56
  /\ ~ layer_invariant s'.
Proof.
  split; [exact layer_invariant_initial|].
  split; [reflexivity|]. split; [reflexivity|].
  unfold layer_invariant. intros [H _]. specialize (H eq_refl).
  vm_compute in H. now apply H.
Qed.

Lemma layer_invariant_step cfg op s :
  layer_fits op ->
  layer_invariant s ->
  layer_invariant (fst (apply_operation cfg op s)).
Proof.
  intros Hfit Hinv.
  destruct op as [event p1 p2 now | eh | | ]; cbn [apply_operation].
  - apply layer_invariant_handle_call; assumption.
  - apply layer_invariant_listener_instance; assumption.
  - apply layer_invariant_layer_disable_callback; assumption.
  - exact Hinv.
Qed.

(** C3 (amended): [layer_active] is set exactly when [active_layer] is
    not negative.  This holds in the initial state and is preserved by the
    key listener and by both work handlers always, and by the motion
    handler whenever its layer number is at most 127. *)
Theorem layer_invariant_preserved cfg op s
    (Hfit : layer_fits op)
    (Hinv : layer_invariant s) :
  layer_invariant initial_state
  /\ layer_invariant (fst (apply_operation cfg op s)).
Proof.
  split; [exact layer_invariant_initial|].
  now apply layer_invariant_step.
Qed.

Lemma layer_invariant_preserved_witness :
  layer_invariant initial_state
  /\ layer_invariant
       (fst (apply_operation sample_config
               (on_motion_event (rel_x 60) 127 200 0) initial_state)).
Proof.
  apply (layer_invariant_preserved sample_config
           (on_motion_event (rel_x 60) 127 200 0) initial_state).
  - vm_compute. discriminate.
  - unfold layer_invariant. simpl. split; [discriminate | lia].
Defined.

(** Every state reached from the initial one by operations whose layer
    numbers fit satisfies the invariant. *)
Corollary layer_invariant_reachable cfg ops :
  Forall layer_fits ops ->
  layer_invariant
    (fold_left (fun s op => fst (apply_operation cfg op s)) ops initial_state).
Proof.
  intros Hfit. generalize layer_invariant_initial.
  generalize initial_state as s.
  induction Hfit as [|op ops Hop _ IH]; intros s Hinv; simpl; [exact Hinv|].
  apply IH. now apply layer_invariant_step.
Qed.

(* ================================================================== *)
(** ** Deactivation keeps the accumulators *)

Lemma magnitude_abs v : Z.abs v <= INT32_MAX -> magnitude v = Z.abs v.
Proof.
  unfold magnitude, INT32_MAX. intros H.
  destruct (Z.ltb_spec 0 v).
  - lia.
  - rewrite wrap32_small; [lia|]. unfold int32_range, INT32_MIN, INT32_MAX. lia.
Qed.

Lemma layer_disable_callback_accumulators s :
  accumulated_x (fst (layer_disable_callback s)) = accumulated_x s
  /\ accumulated_y (fst (layer_disable_callback s)) = accumulated_y s.
Proof.
  unfold layer_disable_callback.
  destruct (layer_active s && (0 <=? active_layer s)); now split.
Qed.

Lemma listener_instance_accumulators eh cfg s :
  accumulated_x (fst (listener_instance eh cfg s)) = accumulated_x s
  /\ accumulated_y (fst (listener_instance eh cfg s)) = accumulated_y s.
Proof.
  unfold listener_instance.
  destruct eh as [ev|]; [|now split].
  destruct (state ev); [|now split]. unfold CHECK_LAYER.
  destruct (layer_active s && negb (is_position_excluded cfg (position ev)));
    now split.
Qed.

(** While the layer is held the handler still accumulates. *)
Lemma active_motion_accumulates cfg event param1 param2 now s :
  prior_idle_blocks cfg s now = false ->
  layer_active s = true ->
  let s' := snd (fst (temp_layer_threshold_handle_event cfg event param1
                        param2 now s)) in
  accumulated_x s' = accumulated_x (accumulate event s)
  /\ accumulated_y s' = accumulated_y (accumulate event s).
Proof.
  intros Hg Hact. cbv zeta. rewrite handle_event_active by assumption.
  now split.
Qed.

(** Without overflow the accumulation does not lower the total. *)
Lemma total_movement_accumulate_ge event s :
  0 <= accumulated_x s ->
  0 <= accumulated_y s ->
  accumulated_x s + accumulated_y s + Z.abs (value event) <= INT32_MAX ->
  accumulated_x s + accumulated_y s <= total_movement (accumulate event s).
Proof.
  intros Hx Hy Hroom.
  assert (Hmag : magnitude (value event) = Z.abs (value event)).
  { apply magnitude_abs. lia. }
  pose proof (Z.abs_nonneg (value event)) as Habs.
  assert (Hr : forall z, 0 <= z <= INT32_MAX -> wrap32 z = z).
  { intros z Hz. apply wrap32_small.
    unfold int32_range, INT32_MIN, INT32_MAX in *. lia. }
  unfold total_movement, accumulate.
  destruct (type event =? INPUT_EV_REL); [|rewrite Hr; lia].
  destruct (code event =? INPUT_REL_X).
  { cbn [accumulated_x accumulated_y set_accumulated_x]. rewrite Hmag.
    rewrite (Hr (accumulated_x s + Z.abs (value event))) by lia.
    rewrite Hr; lia. }
  destruct (code event =? INPUT_REL_Y).
  { cbn [accumulated_x accumulated_y set_accumulated_y]. rewrite Hmag.
    rewrite (Hr (accumulated_y s + Z.abs (value event))) by lia.
    rewrite Hr; lia. }
  rewrite Hr; lia.
Qed.

(** C10: a deactivation, by the disable handler or by the key listener,
    leaves both accumulators as they were.  So when the total they hold
    already meets the threshold, the next motion event that passes the idle
    gate activates the layer again at once.  [Hroom] keeps the sums within
    [int32_t]. *)
Theorem deactivation_keeps_accumulators cfg eh s s' event param1 param2 now
    (Hdeact : s' = fst (layer_disable_callback s)
              \/ s' = fst (listener_instance eh cfg s))
    (Hoff : layer_active s' = false)
    (Hgate : prior_idle_blocks cfg s' now = false)
    (Hx : 0 <= accumulated_x s)
    (Hy : 0 <= accumulated_y s)
    (Hroom : accumulated_x s + accumulated_y s + Z.abs (value event)
             <= INT32_MAX)
    (Hstale : threshold cfg <= accumulated_x s + accumulated_y s) :
  let r := temp_layer_threshold_handle_event cfg event param1 param2 now s' in
  accumulated_x s' = accumulated_x s
  /\ accumulated_y s' = accumulated_y s
  /\ snd r = [zmk_keymap_layer_activate (to_uint8 param1)]
  /\ layer_active (snd (fst r)) = true.
Proof.
  assert (Hacc : accumulated_x s' = accumulated_x s
                 /\ accumulated_y s' = accumulated_y s).
  { destruct Hdeact as [-> | ->].
    - apply layer_disable_callback_accumulators.
    - apply listener_instance_accumulators. }
  destruct Hacc as [Hax Hay]. cbv zeta.
  assert (Hthr : threshold cfg <= total_movement (accumulate event s')).
  { pose proof (total_movement_accumulate_ge event s') as H.
    rewrite Hax, Hay in H. specialize (H Hx Hy Hroom). lia. }
  rewrite handle_event_crossing by assumption.
  repeat split; assumption.
Qed.

(** Layer 1 is held; [X+60] arrives meanwhile and is accumulated; the
    disable work fires at uptime 300; the next event, [Y+1] at uptime 400,
    activates the layer again although it moves by 1 only. *)
Lemma deactivation_keeps_accumulators_witness :
  let s' := fst (layer_disable_callback sample_stale_state) in
  let r := temp_layer_threshold_handle_event sample_config (rel_y 1) 1 200 400
             s' in
  accumulated_x s' = accumulated_x sample_stale_state
  /\ accumulated_y s' = accumulated_y sample_stale_state
  /\ snd r = [zmk_keymap_layer_activate (to_uint8 1)]
  /\ layer_active (snd (fst r)) = true.
Proof.
  apply (deactivation_keeps_accumulators sample_config None
           sample_stale_state
           (fst (layer_disable_callback sample_stale_state))
           (rel_y 1) 1 200 400).
  - left. reflexivity.
  - reflexivity.
  - reflexivity.
  - vm_compute. discriminate.
  - vm_compute. discriminate.
  - vm_compute. discriminate.
  - vm_compute. discriminate.
Defined.

Example stale_total_reactivates :
  accumulated_x sample_stale_state = 60
  /\ layer_active sample_stale_state = true
  /\ layer_disable_callback sample_stale_state
     = (set_active_layer (-1) (set_layer_active false sample_stale_state),
        [zmk_keymap_layer_deactivate 1])
  /\ snd (temp_layer_threshold_handle_event sample_config (rel_y 1) 1 200 400
            (fst (layer_disable_callback sample_stale_state)))
     = [zmk_keymap_layer_activate 1]
  /\ snd (listener_instance
            (Some {| position := 3; state := true; timestamp := 120 |})
            sample_config sample_stale_state)
     = [zmk_keymap_layer_deactivate 1]
  /\ snd (temp_layer_threshold_handle_event sample_config (rel_y 1) 1 200 400
            (fst (listener_instance
                    (Some {| position := 3; state := true; timestamp := 120 |})
                    sample_config sample_stale_state)))
     = [zmk_keymap_layer_activate 1].
Proof. repeat split. Qed.

(* ================================================================== *)
(** ** Further properties: the exclusion scan and the initialisation *)

(** X1: [is_position_excluded] answers membership in the exclusion array:
    it is true exactly for the positions the array lists, so with an empty
    array no position is excluded, and listing a position twice changes
    nothing. *)
Theorem is_position_excluded_membership cfg pos :
  (is_position_excluded cfg pos = true <-> In pos (excluded_positions cfg))
  /\ (excluded_positions cfg = [] -> is_position_excluded cfg pos = false)
  /\ forall thr win idle p ps,
       is_position_excluded
         {| threshold := thr; threshold_time_ms := win;
            require_prior_idle_ms := idle;
            excluded_positions := p :: p :: ps |} pos
       = is_position_excluded
           {| threshold := thr; threshold_time_ms := win;
              require_prior_idle_ms := idle;
              excluded_positions := p :: ps |} pos.
Proof.
  split; [apply is_position_excluded_In|]. split.
  - intros Hnil. apply is_position_excluded_not_In. rewrite Hnil. intros [].
  - intros thr win idle p ps. unfold is_position_excluded, num_positions.
    rewrite !firstn_all. cbn [excluded_positions scan_positions].
    now destruct (p =? pos).
Qed.

Lemma is_position_excluded_membership_witness :
  is_position_excluded sample_config 5 = true
  /\ is_position_excluded
       {| threshold := 50; threshold_time_ms := 100;
          require_prior_idle_ms := 0; excluded_positions := [] |} 5 = false.
Proof.
  split.
  - apply (proj1 (is_position_excluded_membership sample_config 5)).
    simpl. lia.
  - apply (proj1 (proj2 (is_position_excluded_membership
                           {| threshold := 50; threshold_time_ms := 100;
                              require_prior_idle_ms := 0;
                              excluded_positions := [] |} 5))).
    reflexivity.
Defined.

Lemma apply_operation_accumulation_start_time cfg op s :
  accumulation_start_time (fst (apply_operation cfg op s))
  = accumulation_start_time s.
Proof.
  destruct op as [event p1 p2 now | eh | | ]; cbn [apply_operation].
  - unfold handle_call, temp_layer_threshold_handle_event.
    cbn [mc_event mc_param1 mc_param2 mc_now].
    assert (Hacc : accumulation_start_time (accumulate event s)
                   = accumulation_start_time s).
    { unfold accumulate.
      destruct (type event =? INPUT_EV_REL); [|reflexivity].
      destruct (code event =? INPUT_REL_X); [reflexivity|].
      destruct (code event =? INPUT_REL_Y); reflexivity. }
    destruct (prior_idle_blocks cfg s now); [reflexivity|].
    cbn [layer_active set_accumulation_reset_work].
    destruct (layer_active (accumulate event s)); [exact Hacc|].
    destruct (threshold cfg <=? total_movement (accumulate event s));
      exact Hacc.
  - unfold listener_instance. destruct eh as [ev|]; [|reflexivity].
    destruct (state ev); [|reflexivity]. unfold CHECK_LAYER.
    destruct (layer_active s && negb (is_position_excluded cfg (position ev)));
      reflexivity.
  - unfold layer_disable_callback.
    destruct (layer_active s && (0 <=? active_layer s)); reflexivity.
  - reflexivity.
Qed.

Lemma run_operations_accumulation_start_time cfg ops : forall s,
  accumulation_start_time (fst (run_operations cfg ops s))
  = accumulation_start_time s.
Proof.
  induction ops as [|op rest IH]; intros s; cbn [run_operations];
    [reflexivity|].
  pose proof (apply_operation_accumulation_start_time cfg op s) as H1.
  destruct (apply_operation cfg op s) as [s1 t].
  specialize (IH s1).
  destruct (run_operations cfg rest s1) as [s2 ts].
  cbn [fst] in *. congruence.
Qed.

Lemma temp_layer_threshold_init_ext s s' :
  accumulation_start_time s = accumulation_start_time s' ->
  snd (temp_layer_threshold_init s) = snd (temp_layer_threshold_init s').
Proof.
  intros H. unfold temp_layer_threshold_init, set_accumulation_reset_work,
    set_layer_disable_work, set_last_tapped_time, set_layer_active,
    set_active_layer, set_accumulated_y, set_accumulated_x.
  cbn [snd accumulation_start_time]. now rewrite H.
Qed.

(** X2: [temp_layer_threshold_init] returns 0 and overwrites every field
    it names, so its result does not depend on what the storage held.
    The zeroed storage itself does not satisfy the layer invariant
    ([active_layer] is 0 with [layer_active] clear); the initialisation
    establishes it.  No operation writes [accumulation_start_time], so
    initialising again after any run of operations gives exactly the
    initial state. *)
Theorem temp_layer_threshold_init_resets cfg ops s :
  fst (temp_layer_threshold_init s) = 0
  /\ snd (temp_layer_threshold_init s)
     = {| accumulated_x := 0; accumulated_y := 0;
          accumulation_start_time := accumulation_start_time s;
          active_layer := -1; last_tapped_time := 0;
          layer_active := false;
          layer_disable_work := None;
          accumulation_reset_work := None |}
  /\ ~ layer_invariant state_zero
  /\ layer_invariant (snd (temp_layer_threshold_init s))
  /\ snd (temp_layer_threshold_init
            (fst (run_operations cfg ops initial_state)))
     = initial_state.
Proof.
  split; [reflexivity|]. split; [reflexivity|]. split; [|split].
  - unfold layer_invariant. simpl. intros [_ H].
    specialize (H ltac:(lia)). discriminate.
  - now apply layer_invariant_cleared.
  - unfold initial_state at 2.
    apply temp_layer_threshold_init_ext.
    now rewrite run_operations_accumulation_start_time.
Qed.

(* ================================================================== *)
(** ** Further properties: the accumulation block *)

Lemma wrap32_range z : int32_range (wrap32 z).
Proof.
  unfold int32_range, INT32_MIN, INT32_MAX, wrap32, wrap_signed.
  change (2 ^ (32 - 1)) with (2 ^ 31).
  pose proof (Z.mod_pos_bound (z + 2 ^ 31) (2 ^ 32) ltac:(lia)). lia.
Qed.

Lemma wrap32_add_idemp a b : wrap32 (wrap32 a + b) = wrap32 (a + b).
Proof.
  unfold wrap32, wrap_signed. change (2 ^ (32 - 1)) with (2 ^ 31).
  f_equal.
  replace ((a + 2 ^ 31) mod 2 ^ 32 - 2 ^ 31 + b + 2 ^ 31)
    with ((a + 2 ^ 31) mod 2 ^ 32 + b) by lia.
  rewrite Zplus_mod_idemp_l. f_equal. lia.
Qed.

Lemma to_uint8_to_int8 z : to_uint8 (to_int8 z) = to_uint8 z.
Proof.
  unfold to_uint8, to_int8, wrap_signed.
  change (2 ^ (8 - 1)) with 128. change (2 ^ 8) with 256.
  rewrite Zminus_mod_idemp_l. f_equal. lia.
Qed.

Lemma magnitude_neg v :
  int32_range v -> v <> INT32_MIN -> magnitude (- v) = magnitude v.
Proof.
  unfold int32_range, INT32_MIN, INT32_MAX. intros Hr Hne.
  rewrite !magnitude_abs by (unfold INT32_MAX; lia). lia.
Qed.

(** X3: the absolute value the handler takes, [(v > 0) ? v : -v] in
    [int32_t], is the mathematical [|v|] for every 32-bit [v] but the most
    negative one, and then it does not depend on the sign of [v]; for
    [INT32_MIN] the negation wraps and the result is [INT32_MIN] itself,
    a negative amount. *)
Theorem magnitude_absolute_value v
    (Hv : int32_range v) :
  (v <> INT32_MIN ->
   magnitude v = Z.abs v
   /\ 0 <= magnitude v <= INT32_MAX
   /\ magnitude (- v) = magnitude v)
  /\ (v = INT32_MIN -> magnitude v = INT32_MIN /\ magnitude v < 0).
Proof.
  split.
  - intros Hne.
    assert (Habs : Z.abs v <= INT32_MAX).
    { unfold int32_range, INT32_MIN, INT32_MAX in *. lia. }
    rewrite magnitude_neg by assumption.
    rewrite magnitude_abs by assumption. lia.
  - intros ->. split; [reflexivity|]. vm_compute. reflexivity.
Qed.

Lemma magnitude_absolute_value_witness :
  magnitude (-7) = 7 /\ magnitude INT32_MIN = INT32_MIN.
Proof.
  split.
  - refine (proj1 (proj1 (magnitude_absolute_value (-7) _) _)).
    + vm_compute. split; discriminate.
    + discriminate.
  - refine (proj1 (proj2 (magnitude_absolute_value INT32_MIN _) eq_refl)).
    vm_compute. split; discriminate.
Defined.

(** X4: as long as the sum fits [int32_t], a relative X event adds the
    absolute value of its delta to [accumulated_x] and changes nothing
    else, a relative Y event does the same to [accumulated_y], and the
    sign of the delta makes no difference. *)
Theorem accumulate_adds_absolute_value v s
    (Hx : 0 <= accumulated_x s)
    (Hy : 0 <= accumulated_y s)
    (Hroomx : accumulated_x s + Z.abs v <= INT32_MAX)
    (Hroomy : accumulated_y s + Z.abs v <= INT32_MAX) :
  accumulate (rel_x v) s = set_accumulated_x (accumulated_x s + Z.abs v) s
  /\ accumulate (rel_y v) s = set_accumulated_y (accumulated_y s + Z.abs v) s
  /\ accumulate (rel_x (- v)) s = accumulate (rel_x v) s
  /\ accumulate (rel_y (- v)) s = accumulate (rel_y v) s.
Proof.
  pose proof (Z.abs_nonneg v) as Habs.
  assert (Hm : magnitude v = Z.abs v) by (apply magnitude_abs; lia).
  assert (Hm' : magnitude (- v) = Z.abs v).
  { rewrite magnitude_abs; rewrite Z.abs_opp; lia. }
  assert (Hr : forall z, 0 <= z <= INT32_MAX -> wrap32 z = z).
  { intros z Hz. apply wrap32_small.
    unfold int32_range, INT32_MIN, INT32_MAX in *. lia. }
  unfold accumulate, rel_x, rel_y. cbn [type code value].
  change (INPUT_EV_REL =? INPUT_EV_REL) with true.
  change (INPUT_REL_X =? INPUT_REL_X) with true.
  change (INPUT_REL_Y =? INPUT_REL_X) with false.
  change (INPUT_REL_Y =? INPUT_REL_Y) with true.
  cbv iota. rewrite Hm, Hm'. rewrite !Hr by lia. repeat split.
Qed.

Lemma accumulate_adds_absolute_value_witness :
  accumulate (rel_x (-30)) initial_state
  = set_accumulated_x (accumulated_x initial_state + Z.abs (-30)) initial_state
  /\ accumulate (rel_y (-30)) initial_state
     = set_accumulated_y (accumulated_y initial_state + Z.abs (-30))
         initial_state
  /\ accumulate (rel_x (- -30)) initial_state
     = accumulate (rel_x (-30)) initial_state
  /\ accumulate (rel_y (- -30)) initial_state
     = accumulate (rel_y (-30)) initial_state.
Proof.
  apply (accumulate_adds_absolute_value (-30) initial_state).
  - vm_compute. discriminate.
  - vm_compute. discriminate.
  - vm_compute. discriminate.
  - vm_compute. discriminate.
Defined.

Lemma accumulate_movement event s :
  int32_range (accumulated_x s) ->
  int32_range (accumulated_y s) ->
  accumulated_x (accumulate event s)
  = wrap32 (accumulated_x s + movement_x event)
  /\ accumulated_y (accumulate event s)
     = wrap32 (accumulated_y s + movement_y event).
Proof.
  intros Hx Hy. unfold accumulate, movement_x, movement_y.
  destruct (type event =? INPUT_EV_REL); cbn [andb].
  - destruct (Z.eqb_spec (code event) INPUT_REL_X) as [E|E].
    + rewrite E. change (INPUT_REL_X =? INPUT_REL_Y) with false.
      cbn [accumulated_x accumulated_y set_accumulated_x].
      rewrite Z.add_0_r, (wrap32_small _ Hy). now split.
    + destruct (code event =? INPUT_REL_Y);
        cbn [accumulated_x accumulated_y set_accumulated_y];
        rewrite ?Z.add_0_r, ?(wrap32_small _ Hx), ?(wrap32_small _ Hy);
        now split.
  - rewrite !Z.add_0_r, (wrap32_small _ Hx), (wrap32_small _ Hy). now split.
Qed.

Lemma accumulate_swap e1 e2 s :
  accumulate e1 (accumulate e2 s) = accumulate e2 (accumulate e1 s).
Proof.
  assert (Hw : forall a m1 m2,
             wrap32 (wrap32 (a + m2) + m1) = wrap32 (wrap32 (a + m1) + m2)).
  { intros a m1 m2. rewrite !wrap32_add_idemp. f_equal. lia. }
  unfold accumulate.
  destruct (type e1 =? INPUT_EV_REL), (type e2 =? INPUT_EV_REL);
    [| reflexivity | reflexivity | reflexivity].
  destruct (code e1 =? INPUT_REL_X), (code e2 =? INPUT_REL_X),
    (code e1 =? INPUT_REL_Y), (code e2 =? INPUT_REL_Y);
    cbv iota; unfold set_accumulated_x, set_accumulated_y;
    cbn [accumulated_x accumulated_y accumulation_start_time active_layer
         last_tapped_time layer_active layer_disable_work
         accumulation_reset_work];
    first [ rewrite Hw; reflexivity | reflexivity ].
Qed.

(** X5: over any sequence of events, each accumulator ends at its start
    value plus the sum of what the events contribute to its axis, reduced
    to [int32_t]. *)
Theorem accumulate_all_sums events s
    (Hx : int32_range (accumulated_x s))
    (Hy : int32_range (accumulated_y s)) :
  accumulated_x (accumulate_all events s)
  = wrap32 (accumulated_x s + sum_Z (map movement_x events))
  /\ accumulated_y (accumulate_all events s)
     = wrap32 (accumulated_y s + sum_Z (map movement_y events)).
Proof.
  revert s Hx Hy. unfold accumulate_all.
  induction events as [|e rest IH]; intros s Hx Hy;
    cbn [fold_left map sum_Z fold_right].
  - rewrite !Z.add_0_r, (wrap32_small _ Hx), (wrap32_small _ Hy). now split.
  - destruct (accumulate_movement e s Hx Hy) as [Ex Ey].
    assert (Hx1 : int32_range (accumulated_x (accumulate e s)))
      by (rewrite Ex; apply wrap32_range).
    assert (Hy1 : int32_range (accumulated_y (accumulate e s)))
      by (rewrite Ey; apply wrap32_range).
    destruct (IH _ Hx1 Hy1) as [IHx IHy].
    fold (sum_Z (map movement_x rest)) in *.
    fold (sum_Z (map movement_y rest)) in *.
    rewrite IHx, IHy, Ex, Ey, !wrap32_add_idemp, !Z.add_assoc. now split.
Qed.

Lemma accumulate_all_sums_witness :
  accumulated_x (accumulate_all [rel_x 30; rel_y (-25); rel_x (-4)]
                   initial_state)
  = wrap32 (accumulated_x initial_state
            + sum_Z (map movement_x [rel_x 30; rel_y (-25); rel_x (-4)]))
  /\ accumulated_y (accumulate_all [rel_x 30; rel_y (-25); rel_x (-4)]
                      initial_state)
     = wrap32 (accumulated_y initial_state
               + sum_Z (map movement_y [rel_x 30; rel_y (-25); rel_x (-4)])).
Proof.
  apply (accumulate_all_sums [rel_x 30; rel_y (-25); rel_x (-4)]
           initial_state).
  - vm_compute. split; discriminate.
  - vm_compute. split; discriminate.
Defined.

(** X6: the order in which a batch of events is accumulated does not
    matter, overflow included: any reordering leaves the same state. *)
Theorem accumulate_all_order_irrelevant events events' s
    (Hperm : Permutation events events') :
  accumulate_all events s = accumulate_all events' s.
Proof.
  revert s. unfold accumulate_all.
  induction Hperm as [| e l l' _ IH | e1 e2 l | l l' l'' _ IH1 _ IH2];
    intros s; cbn [fold_left].
  - reflexivity.
  - apply IH.
  - now rewrite accumulate_swap.
  - now rewrite IH1, IH2.
Qed.

Lemma accumulate_all_order_irrelevant_witness :
  accumulate_all [rel_x 30; rel_y 25] initial_state
  = accumulate_all [rel_y 25; rel_x 30] initial_state.
Proof.
  apply (accumulate_all_order_irrelevant [rel_x 30; rel_y 25]
           [rel_y 25; rel_x 30] initial_state).
  apply perm_swap.
Defined.

(* ================================================================== *)
(** ** Further properties: the motion handler *)

Lemma accumulate_unrecognised event s :
  unrecognised event -> accumulate event s = s.
Proof.
  unfold unrecognised, accumulate. intros [Ht | [Hx Hy]].
  - apply Z.eqb_neq in Ht. now rewrite Ht.
  - apply Z.eqb_neq in Hx. apply Z.eqb_neq in Hy. rewrite Hx, Hy.
    now destruct (type event =? INPUT_EV_REL).
Qed.

Lemma handle_event_reset_work cfg event param1 param2 now s :
  prior_idle_blocks cfg s now = false ->
  accumulation_reset_work
    (snd (fst (temp_layer_threshold_handle_event cfg event param1 param2
                 now s)))
  = Some (now + Z.max (threshold_time_ms cfg) 0).
Proof.
  intros Hgate. unfold temp_layer_threshold_handle_event. rewrite Hgate.
  cbn [layer_active set_accumulation_reset_work].
  destruct (layer_active (accumulate event s)); [reflexivity|].
  destruct (threshold cfg <=? total_movement (accumulate event s));
    reflexivity.
Qed.

(** X7: an event that is not a relative X or Y event is not accumulated,
    but once past the idle gate it is handled like motion otherwise: the
    reset work is rescheduled, and with the layer inactive the threshold is
    compared against what is already accumulated, so such an event can
    activate the layer. *)
Theorem unrecognised_event_not_accumulated cfg event param1 param2 now s
    (Hun : unrecognised event)
    (Hgate : prior_idle_blocks cfg s now = false) :
  let r := temp_layer_threshold_handle_event cfg event param1 param2 now s in
  accumulate event s = s
  /\ accumulation_reset_work (snd (fst r))
     = Some (now + Z.max (threshold_time_ms cfg) 0)
  /\ snd r
     = if layer_active s then []
       else if threshold cfg <=? total_movement s
            then [zmk_keymap_layer_activate (to_uint8 param1)]
            else [].
Proof.
  cbv zeta. split; [now apply accumulate_unrecognised|].
  split; [now apply handle_event_reset_work|].
  unfold temp_layer_threshold_handle_event. rewrite Hgate.
  rewrite (accumulate_unrecognised event s Hun).
  cbn [layer_active set_accumulation_reset_work].
  destruct (layer_active s); [reflexivity|].
  destruct (threshold cfg <=? total_movement s); reflexivity.
Qed.

(** A key event ([INPUT_EV_KEY] is type 1) arrives while 60 counts are
    already accumulated: nothing is added, the layer is activated. *)
Lemma unrecognised_event_not_accumulated_witness :
  let ev := {| type := 1; code := 272; value := 1 |} in
  let s := set_accumulated_x 60 initial_state in
  let r := temp_layer_threshold_handle_event sample_config ev 1 200 0 s in
  accumulate ev s = s
  /\ accumulation_reset_work (snd (fst r))
     = Some (0 + Z.max (threshold_time_ms sample_config) 0)
  /\ snd r
     = if layer_active s then []
       else if threshold sample_config <=? total_movement s
            then [zmk_keymap_layer_activate (to_uint8 1)]
            else [].
Proof.
  apply (unrecognised_event_not_accumulated sample_config
           {| type := 1; code := 272; value := 1 |} 1 200 0
           (set_accumulated_x 60 initial_state)).
  - left. discriminate.
  - reflexivity.
Defined.

(** X8: what the motion handler never does.  Whatever the input, it
    returns [ZMK_INPUT_PROC_CONTINUE], makes at most one keymap call and
    that call is the activation of its layer parameter (it never
    deactivates), leaves [last_tapped_time] alone, and does not end a held
    layer nor change which layer is held. *)
Theorem handle_event_never_deactivates cfg event param1 param2 now s :
  let r := temp_layer_threshold_handle_event cfg event param1 param2 now s in
  fst (fst r) = ZMK_INPUT_PROC_CONTINUE
  /\ (snd r = [] \/ snd r = [zmk_keymap_layer_activate (to_uint8 param1)])
  /\ last_tapped_time (snd (fst r)) = last_tapped_time s
  /\ (layer_active s = true ->
      layer_active (snd (fst r)) = true
      /\ active_layer (snd (fst r)) = active_layer s).
Proof.
  cbv zeta. unfold temp_layer_threshold_handle_event.
  destruct (prior_idle_blocks cfg s now).
  { cbn [fst snd]. repeat split; auto. }
  cbn [layer_active set_accumulation_reset_work].
  rewrite accumulate_layer_active.
  destruct (layer_active s) eqn:Hact.
  - cbn [fst snd last_tapped_time layer_active active_layer
         set_layer_disable_work set_accumulation_reset_work].
    rewrite accumulate_last_tapped_time, accumulate_layer_active,
      accumulate_active_layer.
    repeat split; auto.
  - destruct (threshold cfg <=? total_movement (accumulate event s));
      cbn [fst snd last_tapped_time set_layer_disable_work set_accumulated_y
           set_accumulated_x set_active_layer set_layer_active
           set_accumulation_reset_work];
      rewrite accumulate_last_tapped_time;
      repeat split; auto; discriminate.
Qed.

(** X9: every motion event that passes the idle gate reschedules the
    reset work to [threshold_time_ms] after the event, whether the layer is
    held, gets activated or stays inactive; a negative [threshold_time_ms]
    counts as zero. *)
Theorem motion_reschedules_reset_work cfg event param1 param2 now s
    (Hgate : prior_idle_blocks cfg s now = false) :
  accumulation_reset_work
    (snd (fst (temp_layer_threshold_handle_event cfg event param1 param2
                 now s)))
  = Some (now + Z.max (threshold_time_ms cfg) 0).
Proof.
  unfold temp_layer_threshold_handle_event. rewrite Hgate.
  cbn [layer_active set_accumulation_reset_work].
  destruct (layer_active (accumulate event s)).
  - (* the layer is held: the timeout is renewed after the rescheduling *)
    reflexivity.
  - destruct (threshold cfg <=? total_movement (accumulate event s)).
    + (* activation *) reflexivity.
    + (* still below the threshold *) reflexivity.
Qed.

Lemma motion_reschedules_reset_work_witness :
  accumulation_reset_work
    (snd (fst (temp_layer_threshold_handle_event sample_config (rel_x 4) 1
                 200 150 sample_active_state)))
  = Some (150 + Z.max (threshold_time_ms sample_config) 0).
Proof.
  apply (motion_reschedules_reset_work sample_config (rel_x 4) 1 200 150
           sample_active_state).
  reflexivity.
Defined.

(** X10: when [now - last_tapped_time] is defined in [int64_t], the idle
    gate drops the event exactly when [require_prior_idle_ms] is positive
    and less than that many milliseconds have passed since the last key
    press; an event exactly [require_prior_idle_ms] after the press gets
    through. *)
Theorem idle_gate_characterised cfg s now
    (Hdiff : int64_range (now - last_tapped_time s)) :
  prior_idle_blocks cfg s now = true
  <-> 0 < require_prior_idle_ms cfg
      /\ now - last_tapped_time s < require_prior_idle_ms cfg.
Proof.
  unfold prior_idle_blocks. rewrite wrap64_small by exact Hdiff.
  rewrite andb_true_iff, !Z.ltb_lt. reflexivity.
Qed.

Lemma idle_gate_characterised_witness :
  prior_idle_blocks gated_config (set_last_tapped_time 1000 initial_state)
    1300 = true
  <-> 0 < require_prior_idle_ms gated_config
      /\ 1300 - last_tapped_time (set_last_tapped_time 1000 initial_state)
         < require_prior_idle_ms gated_config.
Proof.
  apply (idle_gate_characterised gated_config
           (set_last_tapped_time 1000 initial_state) 1300).
  vm_compute. split; discriminate.
Defined.

(** X11: a [require_prior_idle_ms] of zero or less switches the idle gate
    off: every motion event is processed, whatever the uptime and the time
    of the last key press. *)
Theorem idle_gate_disabled cfg event param1 param2 now s
    (Hoff : require_prior_idle_ms cfg <= 0) :
  prior_idle_blocks cfg s now = false
  /\ accumulation_reset_work
       (snd (fst (temp_layer_threshold_handle_event cfg event param1 param2
                    now s)))
     = Some (now + Z.max (threshold_time_ms cfg) 0).
Proof.
  assert (Hgate : prior_idle_blocks cfg s now = false).
  { unfold prior_idle_blocks. apply Z.ltb_ge in Hoff. now rewrite Hoff. }
  split; [exact Hgate | now apply handle_event_reset_work].
Qed.

Lemma idle_gate_disabled_witness :
  prior_idle_blocks sample_config (set_last_tapped_time 1000 initial_state)
    1000 = false
  /\ accumulation_reset_work
       (snd (fst (temp_layer_threshold_handle_event sample_config (rel_x 4) 1
                    200 1000 (set_last_tapped_time 1000 initial_state))))
     = Some (1000 + Z.max (threshold_time_ms sample_config) 0).
Proof.
  apply (idle_gate_disabled sample_config (rel_x 4) 1 200 1000
           (set_last_tapped_time 1000 initial_state)).
  vm_compute. discriminate.
Defined.

(** X12: with the layer inactive and the idle gate passed, the handler
    activates the layer exactly when the total after accumulating the event
    is at least the threshold (a total equal to the threshold activates);
    below the threshold it makes no call and changes only the accumulator
    of the event's axis and the reset work. *)
Theorem activation_iff_threshold_reached cfg event param1 param2 now s
    (Hoff : layer_active s = false)
    (Hgate : prior_idle_blocks cfg s now = false) :
  let r := temp_layer_threshold_handle_event cfg event param1 param2 now s in
  (snd r = [zmk_keymap_layer_activate (to_uint8 param1)]
   <-> threshold cfg <= total_movement (accumulate event s))
  /\ (snd r = [] <-> total_movement (accumulate event s) < threshold cfg)
  /\ (total_movement (accumulate event s) < threshold cfg ->
      snd (fst r)
      = set_accumulation_reset_work
          (Some (now + Z.max (threshold_time_ms cfg) 0))
          (accumulate event s)).
Proof.
  cbv zeta.
  destruct (Z.le_gt_cases (threshold cfg)
              (total_movement (accumulate event s))) as [Hthr|Hthr].
  - rewrite handle_event_crossing by assumption. cbn [fst snd].
    split; [tauto|]. split; [|lia].
    split; [discriminate | lia].
  - rewrite handle_event_below by assumption. cbn [fst snd].
    split; [split; [discriminate | lia]|].
    split; [tauto | reflexivity].
Qed.

(** A total of exactly 50 against a threshold of 50. *)
Lemma activation_iff_threshold_reached_witness :
  let r := temp_layer_threshold_handle_event sample_config (rel_x 50) 1 200 0
             initial_state in
  (snd r = [zmk_keymap_layer_activate (to_uint8 1)]
   <-> threshold sample_config
       <= total_movement (accumulate (rel_x 50) initial_state))
  /\ (snd r = []
      <-> total_movement (accumulate (rel_x 50) initial_state)
          < threshold sample_config)
  /\ (total_movement (accumulate (rel_x 50) initial_state)
      < threshold sample_config ->
      snd (fst r)
      = set_accumulation_reset_work
          (Some (0 + Z.max (threshold_time_ms sample_config) 0))
          (accumulate (rel_x 50) initial_state)).
Proof.
  apply (activation_iff_threshold_reached sample_config (rel_x 50) 1 200 0
           initial_state).
  - reflexivity.
  - reflexivity.
Defined.

Example threshold_boundary :
  snd (temp_layer_threshold_handle_event sample_config (rel_x 50) 1 200 0
         initial_state) = [zmk_keymap_layer_activate 1]
  /\ snd (temp_layer_threshold_handle_event sample_config (rel_x 49) 1 200 0
            initial_state) = [].
Proof. split; reflexivity. Qed.

(* ================================================================== *)
(** ** Further properties: the key listener *)

Lemma foreach_CHECK_LAYER_map ev devs :
  fst (foreach_CHECK_LAYER ev devs)
  = map (fun d => {| config := config d;
                     data := fst (CHECK_LAYER ev (config d) (data d)) |})
      devs.
Proof.
  induction devs as [|d0 devs IH]; cbn [foreach_CHECK_LAYER map];
    [reflexivity|].
  destruct (CHECK_LAYER ev (config d0) (data d0)) as [s calls].
  destruct (foreach_CHECK_LAYER ev devs) as [rest' calls'].
  cbn [fst] in *. now rewrite IH.
Qed.

Lemma listener_devices_map eh devs :
  listener_devices eh devs
  = map (fun d => {| config := config d;
                     data := fst (listener_instance eh (config d) (data d)) |})
      devs.
Proof.
  unfold listener_devices, position_state_changed_listener,
    listener_instance.
  assert (Hid : map (fun d => {| config := config d; data := data d |}) devs
                = devs).
  { induction devs as [|d devs IH]; cbn [map]; [reflexivity|].
    rewrite IH. now destruct d. }
  destruct eh as [ev|]; cbn [fst snd].
  - destruct (state ev); cbn [negb fst snd].
    + pose proof (foreach_CHECK_LAYER_map ev devs) as H.
      destruct (foreach_CHECK_LAYER ev devs) as [devs' calls]. exact H.
    + now rewrite Hid.
  - now rewrite Hid.
Qed.

(** X13: the listener returns [ZMK_EV_EVENT_BUBBLE] and treats every
    instance on its own: the instances keep their number, order and
    configuration, the new data of an instance depends on its own
    configuration and data only, and the keymap calls are those of the
    instances in instance order. *)
Theorem listener_is_per_instance eh devs :
  fst (fst (position_state_changed_listener eh devs)) = ZMK_EV_EVENT_BUBBLE
  /\ listener_devices eh devs
     = map (fun d =>
              {| config := config d;
                 data := fst (listener_instance eh (config d) (data d)) |})
         devs
  /\ map config (listener_devices eh devs) = map config devs
  /\ length (listener_devices eh devs) = length devs
  /\ listener_calls eh devs
     = flat_map (fun d => snd (listener_instance eh (config d) (data d)))
         devs.
Proof.
  split.
  { unfold position_state_changed_listener. destruct eh as [ev|];
      [|reflexivity].
    destruct (negb (state ev)); [reflexivity|].
    now destruct (foreach_CHECK_LAYER ev devs). }
  split; [apply listener_devices_map|].
  rewrite listener_devices_map, map_map, length_map. cbn [config].
  repeat split. apply listener_calls_flat.
Qed.

(** Two instances with different exclusion lists, both holding a layer:
    a press on position 5 ends the layer of the second only. *)
Example listener_two_instances :
  let other :=
    {| threshold := 50; threshold_time_ms := 100;
       require_prior_idle_ms := 0; excluded_positions := [7] |} in
  let devs :=
    [ {| config := sample_config; data := sample_active_state |};
      {| config := other; data := sample_active_state |} ] in
  let press5 := Some {| position := 5; state := true; timestamp := 50 |} in
  map (fun d => layer_active (data d)) (listener_devices press5 devs)
  = [true; false]
  /\ listener_calls press5 devs = [zmk_keymap_layer_deactivate 1].
Proof. split; reflexivity. Qed.

Lemma listener_instance_frame eh cfg s :
  accumulated_x (fst (listener_instance eh cfg s)) = accumulated_x s
  /\ accumulated_y (fst (listener_instance eh cfg s)) = accumulated_y s
  /\ accumulation_reset_work (fst (listener_instance eh cfg s))
     = accumulation_reset_work s
  /\ (layer_active s = false ->
      layer_active (fst (listener_instance eh cfg s)) = false
      /\ active_layer (fst (listener_instance eh cfg s)) = active_layer s
      /\ layer_disable_work (fst (listener_instance eh cfg s))
         = layer_disable_work s
      /\ snd (listener_instance eh cfg s) = [])
  /\ Forall (fun c => exists l, c = zmk_keymap_layer_deactivate l)
       (snd (listener_instance eh cfg s)).
Proof.
  unfold listener_instance.
  destruct eh as [ev|]; [|repeat split; auto].
  destruct (state ev); cbn [negb]; [|repeat split; auto].
  unfold CHECK_LAYER.
  destruct (layer_active s) eqn:Hact; cbn [andb].
  - destruct (negb (is_position_excluded cfg (position ev)));
      cbn [fst snd]; repeat split; try discriminate; auto.
    constructor; [eexists; reflexivity | constructor].
  - cbn [fst snd]. repeat split; auto.
Qed.

(** X14: what the listener never does.  For every instance it leaves the
    accumulators and the reset work alone; an instance whose layer is
    inactive changes in [last_tapped_time] at most and makes no call; and
    every keymap call the listener makes is a deactivation. *)
Theorem listener_never_activates eh devs n d
    (Hn : nth_error devs n = Some d) :
  exists d',
    nth_error (listener_devices eh devs) n = Some d'
    /\ accumulated_x (data d') = accumulated_x (data d)
    /\ accumulated_y (data d') = accumulated_y (data d)
    /\ accumulation_reset_work (data d') = accumulation_reset_work (data d)
    /\ (layer_active (data d) = false ->
        layer_active (data d') = false
        /\ active_layer (data d') = active_layer (data d)
        /\ layer_disable_work (data d') = layer_disable_work (data d))
    /\ Forall (fun c => exists l, c = zmk_keymap_layer_deactivate l)
         (listener_calls eh devs).
Proof.
  eexists. split; [apply listener_devices_nth; exact Hn|].
  cbn [data].
  destruct (listener_instance_frame eh (config d) (data d))
    as (Hx & Hy & Hw & Hoff & _).
  repeat split; try assumption; try (now apply Hoff).
  rewrite listener_calls_flat. apply Forall_flat_map.
  apply Forall_forall. intros d0 _.
  apply (listener_instance_frame eh (config d0) (data d0)).
Qed.

Lemma listener_never_activates_witness :
  exists d',
    nth_error
      (listener_devices
         (Some {| position := 3; state := true; timestamp := 50 |})
         [ {| config := sample_config; data := sample_stale_state |} ]) 0
    = Some d'
    /\ accumulated_x (data d') = accumulated_x sample_stale_state
    /\ accumulated_y (data d') = accumulated_y sample_stale_state
    /\ accumulation_reset_work (data d')
       = accumulation_reset_work sample_stale_state
    /\ (layer_active sample_stale_state = false ->
        layer_active (data d') = false
        /\ active_layer (data d') = active_layer sample_stale_state
        /\ layer_disable_work (data d')
           = layer_disable_work sample_stale_state)
    /\ Forall (fun c => exists l, c = zmk_keymap_layer_deactivate l)
         (listener_calls
            (Some {| position := 3; state := true; timestamp := 50 |})
            [ {| config := sample_config; data := sample_stale_state |} ]).
Proof.
  apply (listener_never_activates
           (Some {| position := 3; state := true; timestamp := 50 |})
           [ {| config := sample_config; data := sample_stale_state |} ]
           0%nat
           {| config := sample_config; data := sample_stale_state |}).
  reflexivity.
Defined.

(** X15: a key press arms the idle gate of every instance, whether the
    position is excluded or not and whether a layer is held or not: with
    [require_prior_idle_ms > 0], a motion event less than that long after
    the press is dropped by the handler of the instance. *)
Theorem key_press_arms_idle_gate ev devs n d event param1 param2 now
    (Hn : nth_error devs n = Some d)
    (Hpress : state ev = true)
    (Hidle : 0 < require_prior_idle_ms (config d))
    (Hdiff : int64_range (now - timestamp ev))
    (Hrecent : now - timestamp ev < require_prior_idle_ms (config d)) :
  exists d',
    nth_error (listener_devices (Some ev) devs) n = Some d'
    /\ config d' = config d
    /\ temp_layer_threshold_handle_event (config d') event param1 param2 now
         (data d')
       = (ZMK_INPUT_PROC_CONTINUE, data d', []).
Proof.
  eexists. split; [apply listener_devices_nth; exact Hn|].
  split; [reflexivity|]. cbn [config data].
  assert (Hts : last_tapped_time
                  (fst (listener_instance (Some ev) (config d) (data d)))
                = timestamp ev).
  { unfold listener_instance. rewrite Hpress. cbn [negb].
    apply CHECK_LAYER_last_tapped_time. }
  unfold temp_layer_threshold_handle_event, prior_idle_blocks.
  rewrite Hts, wrap64_small by exact Hdiff.
  apply Z.ltb_lt in Hidle. apply Z.ltb_lt in Hrecent.
  now rewrite Hidle, Hrecent.
Qed.

(** The excluded key 5 is pressed at uptime 1000 while nothing is held;
    a move of 80 counts at uptime 1100 is dropped. *)
Lemma key_press_arms_idle_gate_witness :
  exists d',
    nth_error
      (listener_devices
         (Some {| position := 5; state := true; timestamp := 1000 |})
         [ {| config := gated_config; data := initial_state |} ]) 0
    = Some d'
    /\ config d' = gated_config
    /\ temp_layer_threshold_handle_event (config d') (rel_x 80) 1 200 1100
         (data d')
       = (ZMK_INPUT_PROC_CONTINUE, data d', []).
Proof.
  apply (key_press_arms_idle_gate
           {| position := 5; state := true; timestamp := 1000 |}
           [ {| config := gated_config; data := initial_state |} ] 0%nat
           {| config := gated_config; data := initial_state |}
           (rel_x 80) 1 200 1100).
  - reflexivity.
  - reflexivity.
  - vm_compute. reflexivity.
  - vm_compute. split; discriminate.
  - vm_compute. reflexivity.
Defined.

(* ================================================================== *)
(** ** Further properties: activation and deactivation together *)

Lemma to_uint8_idemp z : to_uint8 (to_uint8 z) = to_uint8 z.
Proof. unfold to_uint8. apply Z.mod_mod. lia. Qed.

Lemma held_of_ext s s' :
  layer_active s' = layer_active s ->
  active_layer s' = active_layer s ->
  held_of s' = held_of s.
Proof. unfold held_of. now intros -> ->. Qed.

(** X16: a key press ends the layer the handler activated, whatever the
    layer parameter: the deactivation names the very layer number the
    activation named, also for numbers above 127, which [active_layer]
    holds as negative values. *)
Theorem key_press_deactivates_activated_layer
    cfg event param1 param2 now s ev
    (Hoff : layer_active s = false)
    (Hgate : prior_idle_blocks cfg s now = false)
    (Hthr : threshold cfg <= total_movement (accumulate event s))
    (Hpress : state ev = true)
    (Hnot : ~ In (position ev) (excluded_positions cfg)) :
  let r := temp_layer_threshold_handle_event cfg event param1 param2 now s in
  snd r = [zmk_keymap_layer_activate (to_uint8 param1)]
  /\ snd (listener_instance (Some ev) cfg (snd (fst r)))
     = [zmk_keymap_layer_deactivate (to_uint8 param1)]
  /\ layer_active (fst (listener_instance (Some ev) cfg (snd (fst r))))
     = false.
Proof.
  cbv zeta. rewrite handle_event_crossing by assumption. cbn [fst snd].
  split; [reflexivity|].
  apply is_position_excluded_not_In in Hnot.
  unfold listener_instance, CHECK_LAYER. rewrite Hpress, Hnot.
  cbn [negb andb layer_active active_layer set_layer_disable_work
       set_accumulated_y set_accumulated_x set_active_layer set_layer_active
       set_last_tapped_time fst snd].
  now rewrite to_uint8_to_int8, to_uint8_idemp.
Qed.

Lemma key_press_deactivates_activated_layer_witness :
  let r := temp_layer_threshold_handle_event sample_config (rel_x 60) 200 200
             0 initial_state in
  let press := Some {| position := 3; state := true; timestamp := 50 |} in
  snd r = [zmk_keymap_layer_activate (to_uint8 200)]
  /\ snd (listener_instance press sample_config (snd (fst r)))
     = [zmk_keymap_layer_deactivate (to_uint8 200)]
  /\ layer_active (fst (listener_instance press sample_config (snd (fst r))))
     = false.
Proof.
  apply (key_press_deactivates_activated_layer sample_config (rel_x 60) 200
           200 0 initial_state
           {| position := 3; state := true; timestamp := 50 |}).
  - reflexivity.
  - reflexivity.
  - vm_compute. discriminate.
  - reflexivity.
  - simpl. lia.
Defined.

(** X17: the expiry of the disable work ends the layer the handler
    activated only when its number is at most 127; then the deactivation
    names that layer.  For a layer number from 128 to 255 the handler of
    the disable work does nothing at all, and the layer stays held until a
    key press ends it. *)
Theorem disable_timer_after_activation cfg event param1 param2 now s
    (Hoff : layer_active s = false)
    (Hgate : prior_idle_blocks cfg s now = false)
    (Hthr : threshold cfg <= total_movement (accumulate event s)) :
  let s1 :=
    snd (fst (temp_layer_threshold_handle_event cfg event param1 param2
                now s)) in
  (to_uint8 param1 <= 127 ->
   layer_disable_callback s1
   = (set_active_layer (-1) (set_layer_active false s1),
      [zmk_keymap_layer_deactivate (to_uint8 param1)]))
  /\ (128 <= to_uint8 param1 ->
      layer_disable_callback s1 = (s1, []) /\ layer_active s1 = true).
Proof.
  cbv zeta. rewrite handle_event_crossing by assumption. cbn [fst snd].
  pose proof (to_uint8_range param1) as Hr.
  unfold layer_disable_callback.
  cbn [layer_active active_layer set_layer_disable_work set_accumulated_y
       set_accumulated_x set_active_layer set_layer_active andb].
  split; intros Hl.
  - rewrite to_int8_small by lia.
    assert (H0 : (0 <=? to_uint8 param1) = true) by (apply Z.leb_le; lia).
    rewrite H0. now rewrite to_uint8_idemp.
  - rewrite to_int8_high by lia.
    assert (H0 : (0 <=? to_uint8 param1 - 256) = false)
      by (apply Z.leb_gt; lia).
    rewrite H0. now split.
Qed.

Lemma disable_timer_after_activation_witness :
  let s1 :=
    snd (fst (temp_layer_threshold_handle_event sample_config (rel_x 60) 200
                200 0 initial_state)) in
  (to_uint8 200 <= 127 ->
   layer_disable_callback s1
   = (set_active_layer (-1) (set_layer_active false s1),
      [zmk_keymap_layer_deactivate (to_uint8 200)]))
  /\ (128 <= to_uint8 200 ->
      layer_disable_callback s1 = (s1, []) /\ layer_active s1 = true).
Proof.
  apply (disable_timer_after_activation sample_config (rel_x 60) 200 200 0
           initial_state).
  - reflexivity.
  - reflexivity.
  - vm_compute. discriminate.
Defined.

Lemma replay_app calls1 : forall held calls2,
  replay held (calls1 ++ calls2)
  = match replay held calls1 with
    | Some held' => replay held' calls2
    | None => None
    end.
Proof.
  induction calls1 as [|c rest IH]; intros held calls2; cbn [app replay];
    [reflexivity|].
  destruct c as [l|l], held as [l'|]; try reflexivity; try apply IH.
  destruct (l' =? l); [apply IH | reflexivity].
Qed.

Lemma replay_deactivate_held s :
  layer_active s = true ->
  replay (held_of s) [zmk_keymap_layer_deactivate (to_uint8 (active_layer s))]
  = Some None.
Proof.
  intros Hact. unfold held_of. rewrite Hact. cbn [replay].
  now rewrite Z.eqb_refl.
Qed.

Lemma apply_operation_replay cfg op s :
  replay (held_of s) (snd (apply_operation cfg op s))
  = Some (held_of (fst (apply_operation cfg op s))).
Proof.
  destruct op as [event p1 p2 now | eh | | ]; cbn [apply_operation].
  - unfold handle_call. cbn [mc_event mc_param1 mc_param2 mc_now].
    destruct (prior_idle_blocks cfg s now) eqn:Hg.
    { unfold temp_layer_threshold_handle_event. rewrite Hg. reflexivity. }
    destruct (layer_active s) eqn:Hact.
    { rewrite handle_event_active by assumption. cbn [fst snd replay].
      f_equal. symmetry. apply held_of_ext; cbn [layer_active active_layer
        set_layer_disable_work set_accumulation_reset_work].
      - apply accumulate_layer_active.
      - apply accumulate_active_layer. }
    destruct (Z.le_gt_cases (threshold cfg)
                (total_movement (accumulate event s))) as [Hthr|Hthr].
    + rewrite handle_event_crossing by assumption. cbn [fst snd].
      unfold held_of at 1. rewrite Hact. cbn [replay].
      unfold held_of.
      cbn [layer_active active_layer set_layer_disable_work set_accumulated_y
           set_accumulated_x set_active_layer set_layer_active].
      now rewrite to_uint8_to_int8, to_uint8_idemp.
    + rewrite handle_event_below by assumption. cbn [fst snd replay].
      f_equal. symmetry. apply held_of_ext; cbn [layer_active active_layer
        set_accumulation_reset_work].
      * apply accumulate_layer_active.
      * apply accumulate_active_layer.
  - unfold listener_instance. destruct eh as [ev|]; [|reflexivity].
    destruct (state ev); cbn [negb]; [|reflexivity]. unfold CHECK_LAYER.
    destruct (layer_active s) eqn:Hact; cbn [andb].
    + destruct (negb (is_position_excluded cfg (position ev)));
        cbn [fst snd].
      * now rewrite replay_deactivate_held.
      * reflexivity.
    + reflexivity.
  - unfold layer_disable_callback.
    destruct (layer_active s) eqn:Hact; cbn [andb]; [|reflexivity].
    destruct (0 <=? active_layer s); cbn [fst snd]; [|reflexivity].
    now rewrite replay_deactivate_held.
  - reflexivity.
Qed.

(** X18: over any run of operations on an instance, started in any
    state, the keymap calls are paired: a layer is activated only while
    none is held, a deactivation only ever names the layer that is held
    (so nothing is deactivated twice, and a late expiry after a key press
    makes no call), and what the state says is held at the end is what the
    calls leave held. *)
Theorem keymap_calls_are_paired cfg ops s :
  replay (held_of s) (concat (snd (run_operations cfg ops s)))
  = Some (held_of (fst (run_operations cfg ops s))).
Proof.
  revert s. induction ops as [|op rest IH]; intros s;
    cbn [run_operations]; [reflexivity|].
  pose proof (apply_operation_replay cfg op s) as Hstep.
  destruct (apply_operation cfg op s) as [s1 t]. cbn [fst snd] in Hstep.
  specialize (IH s1).
  destruct (run_operations cfg rest s1) as [s2 ts]. cbn [fst snd] in *.
  cbn [concat]. now rewrite replay_app, Hstep.
Qed.

(** A layer is activated, an excluded key is pressed, an ordinary key
    ends the layer, the disable work expires late, and motion activates
    again. *)
Example paired_calls_scenario :
  concat
    (snd (run_operations sample_config
            [ on_motion_event (rel_x 60) 1 200 0;
              on_key_position_event
                (Some {| position := 5; state := true; timestamp := 10 |});
              on_key_position_event
                (Some {| position := 3; state := true; timestamp := 20 |});
              on_disable_timer_fire;
              on_motion_event (rel_y 60) 2 200 300 ] initial_state))
  = [ zmk_keymap_layer_activate 1;
      zmk_keymap_layer_deactivate 1;
      zmk_keymap_layer_activate 2 ].
Proof. reflexivity. Qed.

(** X19: the handler reads its layer parameter through [uint8_t]: only
    the low eight bits of [param1] count, so [param1] and [param1 + 256]
    give the same result, and a parameter of 256 activates layer 0. *)
Theorem layer_parameter_truncated cfg event param1 param2 now s :
  temp_layer_threshold_handle_event cfg event param1 param2 now s
  = temp_layer_threshold_handle_event cfg event (to_uint8 param1) param2
      now s
  /\ temp_layer_threshold_handle_event cfg event (param1 + 256) param2 now s
     = temp_layer_threshold_handle_event cfg event param1 param2 now s.
Proof.
  assert (H256 : to_uint8 (param1 + 256) = to_uint8 param1).
  { unfold to_uint8. change (2 ^ 8) with 256.
    replace (param1 + 256) with (param1 + 1 * 256) by lia.
    apply Z.mod_add. lia. }
  unfold temp_layer_threshold_handle_event.
  now rewrite to_uint8_idemp, H256.
Qed.

Example layer_parameter_256 :
  snd (temp_layer_threshold_handle_event sample_config (rel_x 60) 256 200 0
         initial_state) = [zmk_keymap_layer_activate 0].
Proof. reflexivity. Qed.
